(** * Answering-machine detection: the decision engine

    A shallow embedding of [app/amd_detector.py], [app/config.py] and of the
    session handling of [app/main.py], with the properties of the design
    document stated over it.

    Conventions of the embedding:
    - a Python [str] is the list of its code points ([str]); literals are
      written as UTF-8 strings and decoded by [u];
    - a Python [float] is an exact rational ([Q]); every constant of the
      source is a short decimal, and the last section shows that the
      comparisons the program makes on a confidence come out in binary64
      as they do in [Q];
    - a [dict] with a fixed set of optional keys is a record with [option]
      fields;
    - the Vosk recognizer is an interface ([Recognizer]);
    - [str.lower], whose Unicode tables belong to the interpreter, is a
      parameter of the classifier. *)

From Stdlib Require Import ZArith NArith QArith Qminmax Lqa Bool List String Ascii Lia.
From Corelib Require Import PrimFloat.
From stdpp Require Import base option list gmap.
Import ListNotations.

Local Open Scope N_scope.

(** ** Strings *)

Definition str : Type := list N.

Fixpoint utf8_decode (bs : list N) : str :=
  match bs with
  | [] => []
  | b0 :: r0 =>
      if b0 <? 128 then b0 :: utf8_decode r0
      else
        match r0 with
        | [] => []
        | b1 :: r1 =>
            if b0 <? 224 then ((b0 - 192) * 64 + (b1 - 128)) :: utf8_decode r1
            else
              match r1 with
              | [] => []
              | b2 :: r2 =>
                  if b0 <? 240
                  then ((b0 - 224) * 4096 + (b1 - 128) * 64 + (b2 - 128))
                         :: utf8_decode r2
                  else
                    match r2 with
                    | [] => []
                    | b3 :: r3 =>
                        ((b0 - 240) * 262144 + (b1 - 128) * 4096
                         + (b2 - 128) * 64 + (b3 - 128)) :: utf8_decode r3
                    end
              end
        end
  end.

(** [u "..."] is the Python string written between the quotes. *)
Definition u (s : string) : str :=
  utf8_decode (List.map N_of_ascii (list_ascii_of_string s)).
Arguments u : simpl never.

(** [str.isspace] of one character: the code points Python treats as
    whitespace in [strip] and [split]. *)
Definition isspace (c : N) : bool :=
  ((9 <=? c) && (c <=? 13)) || ((28 <=? c) && (c <=? 32))
  || (c =? 133) || (c =? 160) || (c =? 5760)
  || ((8192 <=? c) && (c <=? 8202))
  || (c =? 8232) || (c =? 8233) || (c =? 8239) || (c =? 8287) || (c =? 12288).

Fixpoint lstrip (s : str) : str :=
  match s with
  | [] => []
  | c :: s' => if isspace c then lstrip s' else s
  end.

Definition rstrip (s : str) : str := rev (lstrip (rev s)).

(** [s.strip()] *)
Definition strip (s : str) : str := rstrip (lstrip s).

(** [s.split()]: the maximal runs of non-whitespace characters, in order.
    [cur] holds the characters of the current run, last one first. *)
Fixpoint split_from (cur : str) (s : str) : list str :=
  match s with
  | [] => match cur with [] => [] | _ :: _ => [rev cur] end
  | c :: s' =>
      if isspace c
      then match cur with
           | [] => split_from [] s'
           | _ :: _ => rev cur :: split_from [] s'
           end
      else split_from (c :: cur) s'
  end.

Definition split (s : str) : list str := split_from [] s.

Fixpoint startswith (s p : str) {struct p} : bool :=
  match p, s with
  | [], _ => true
  | _ :: _, [] => false
  | a :: p', b :: s' => (a =? b) && startswith s' p'
  end.

(** [p in s] on strings: [p] occurs in [s] as a contiguous run. *)
Fixpoint str_in (p s : str) : bool :=
  startswith s p
  || match s with
     | [] => false
     | _ :: s' => str_in p s'
     end.

(** Truth value of a string: [if s:] holds for the non-empty ones. *)
Definition truthy (s : str) : bool :=
  match s with [] => false | _ :: _ => true end.

(** The relation [str_in] decides. *)
Definition occurs_in (p s : str) : Prop := exists a b, s = a ++ p ++ b.

(** ** Configuration ([app/config.py]) *)

Definition AMD_DECISION_TIMEOUT_SECONDS : Q := 3.5%Q.
Definition AMD_MIN_SPEECH_FOR_MACHINE : Q := 2.5%Q.

Definition VOICEMAIL_KEYWORDS : list str :=
  Eval vm_compute in
  List.map u
    [ "mensaje"; "buzón"; "buzon"; "tono"; "ocupado"; "disponible";
      "después del"; "despues del"; "deje su"; "deja tu"; "no se encuentra";
      "fuera de servicio"; "no está disponible"; "no esta disponible";
      "vuelva a llamar"; "intentelo más tarde"; "intentelo mas tarde";
      "número que usted marcó"; "numero que usted marco";
      "en este momento"; "por favor"; "gracias por llamar";
      "horario de atención"; "horario de atencion";
      "marque la extensión"; "marque la extension";
      "bienvenido"; "ha comunicado con"; "ha llamado a";
      "voicemail"; "leave a message"; "after the tone"; "beep";
      "not available"; "please call back" ]%string.

(** ** The classifier ([AMDDetector.analyze_transcription]) *)

Inductive Outcome : Set := HUMAN | MACHINE | UNKNOWN.

(** The [reason] text is built by string formatting from the rule that fired
    and its data; the embedding keeps the rule and the data. *)
Inductive Reason : Type :=
| NoSpeech                                        (* "No se detecto habla" *)
| KeywordsDetected (found : list str)             (* "Palabras clave detectadas: ..." *)
| LongSpeech (duration : Q) (word_count : nat)    (* "Habla continua larga (...)" *)
| HumanGreeting (text : str)                      (* "Saludo humano detectado: ..." *)
| ShortAnswer                                     (* "Respuesta corta sin indicadores de buzon" *)
| Undetermined.                                   (* "No se pudo determinar con certeza" *)

(** The result dictionary.  [keywords] is present on the keyword rule only;
    [call_id], [partial] and [forced] are added by the session. *)
Record Analysis : Type := mkAnalysis {
  result : Outcome;
  confidence : Q;
  reason : Reason;
  transcription : str;
  keywords : option (list str);
  call_id : option str;
  partial : option bool;
  forced : option bool
}.

Definition Qlt_bool (x y : Q) : bool := negb (Qle_bool y x).

(** [min(a, b)] of Python: the first argument unless the second is smaller. *)
Definition py_min (a b : Q) : Q := if Qlt_bool b a then b else a.

Definition len {A} (l : list A) : Z := Z.of_nat (length l).

Definition human_greetings : list str :=
  Eval vm_compute in
  List.map u
    [ "alo"; "aló"; "hola"; "si"; "sí"; "diga"; "digame"; "dígame";
      "bueno"; "quien"; "quién"; "mande" ]%string.

Definition Outcome_eqb (a b : Outcome) : bool :=
  match a, b with
  | HUMAN, HUMAN | MACHINE, MACHINE | UNKNOWN, UNKNOWN => true
  | _, _ => false
  end.

Section Classifier.

(** [str.lower] *)
Variable lower : str -> str.

(** The keywords found by the scan, in the order of [VOICEMAIL_KEYWORDS]. *)
Definition keywords_found (text_lower : str) : list str :=
  List.filter (fun keyword => str_in keyword text_lower) VOICEMAIL_KEYWORDS.

Definition analyze_transcription (text : str) (speech_duration : Q) : Analysis :=
  let text_lower := strip (lower text) in
  if negb (truthy text_lower) then
    mkAnalysis UNKNOWN 0.0 NoSpeech [] None None None None
  else
    let found := keywords_found text_lower in
    if (1 <=? len found)%Z then
      let confidence := py_min 0.95 (0.7 + inject_Z (len found) * 0.1) in
      mkAnalysis MACHINE confidence (KeywordsDetected found) text_lower
                 (Some found) None None None
    else
      let long_speech :=
        if Qlt_bool AMD_MIN_SPEECH_FOR_MACHINE speech_duration
        then (8 <? len (split text_lower))%Z
        else false in
      if long_speech then
        mkAnalysis MACHINE 0.75
                   (LongSpeech speech_duration (length (split text_lower)))
                   text_lower None None None None
      else
        let words := split text_lower in
        if (len words <=? 3)%Z
           && existsb (fun greeting => str_in greeting text_lower) human_greetings
        then
          mkAnalysis HUMAN 0.85 (HumanGreeting text_lower) text_lower
                     None None None None
        else if (len words <=? 4)%Z && (len found =? 0)%Z then
          mkAnalysis HUMAN 0.70 ShortAnswer text_lower None None None None
        else
          mkAnalysis UNKNOWN 0.5 Undetermined text_lower None None None None.

End Classifier.

(** ** The recognizer (Vosk's [KaldiRecognizer])

    The speech-to-text engine is outside the repository.  The session uses
    four of its methods and the constructor; each method may change the
    recognizer, so it returns the recognizer that results.  The JSON text a
    method returns is read by [json.loads(...).get(key, "")]: the embedding
    gives the string under the key, empty when the key is absent. *)

Definition bytes : Type := list Byte.byte.

Class Recognizer (R : Type) : Type := {
  (** [KaldiRecognizer(model, sample_rate)] *)
  create_recognizer : Z -> R;
  (** [AcceptWaveform(audio_data)]: true when an utterance is complete *)
  AcceptWaveform : R -> bytes -> bool * R;
  (** [json.loads(Result()).get("text", "")] *)
  Result : R -> str * R;
  (** [json.loads(PartialResult()).get("partial", "")] *)
  PartialResult : R -> str * R;
  (** [json.loads(FinalResult()).get("text", "")] *)
  FinalResult : R -> str * R
}.

(** ** The session ([AMDSession]) *)

Inductive Exception : Set := ZeroDivisionError.

(** How a call ends: with a value, or with an exception raised. *)
Inductive Completion (A : Type) : Type :=
| Return (a : A)
| Raise (e : Exception).
Arguments Return {A} a.
Arguments Raise {A} e.

(** The attributes of a session.  [speech_start_time] is set to [None] by
    the constructor and never used again; [detector] is the classifier. *)
Record AMDSession (R : Type) : Type := mkSession {
  session_call_id : str;
  sample_rate : Z;
  recognizer : R;
  accumulated_text : str;
  total_speech_duration : Q;
  decision_made : bool;
  final_result : option Analysis
}.
Arguments mkSession {R}.
Arguments session_call_id {R}.
Arguments sample_rate {R}.
Arguments recognizer {R}.
Arguments accumulated_text {R}.
Arguments total_speech_duration {R}.
Arguments decision_made {R}.
Arguments final_result {R}.

(** [{"call_id": call_id, **analysis}] *)
Definition with_call_id (id : str) (a : Analysis) : Analysis :=
  mkAnalysis (result a) (confidence a) (reason a) (transcription a)
             (keywords a) (Some id) (partial a) (forced a).

(** [{..., "partial": True}] *)
Definition with_partial (a : Analysis) : Analysis :=
  mkAnalysis (result a) (confidence a) (reason a) (transcription a)
             (keywords a) (call_id a) (Some true) (forced a).

(** [{..., "forced": True}] *)
Definition with_forced (a : Analysis) : Analysis :=
  mkAnalysis (result a) (confidence a) (reason a) (transcription a)
             (keywords a) (call_id a) (partial a) (Some true).

Section Session.

Variable lower : str -> str.
Context {R : Type} `{Recognizer R}.

Definition set_recognizer (self : AMDSession R) (r : R) : AMDSession R :=
  mkSession (session_call_id self) (sample_rate self) r
            (accumulated_text self) (total_speech_duration self)
            (decision_made self) (final_result self).

Definition set_accumulated_text (self : AMDSession R) (t : str) : AMDSession R :=
  mkSession (session_call_id self) (sample_rate self) (recognizer self)
            t (total_speech_duration self)
            (decision_made self) (final_result self).

Definition set_total_speech_duration (self : AMDSession R) (d : Q) : AMDSession R :=
  mkSession (session_call_id self) (sample_rate self) (recognizer self)
            (accumulated_text self) d
            (decision_made self) (final_result self).

(** [self.decision_made = True; self.final_result = r] *)
Definition decide_with (self : AMDSession R) (r : Analysis) : AMDSession R :=
  mkSession (session_call_id self) (sample_rate self) (recognizer self)
            (accumulated_text self) (total_speech_duration self)
            true (Some r).

(** [AMDSession.__init__] *)
Definition new_session (call_id : str) (sample_rate : Z) : AMDSession R :=
  mkSession call_id sample_rate (create_recognizer sample_rate) [] 0.0 false None.

(** [AMDSession.process_audio].  The division by [sample_rate * 2] raises
    [ZeroDivisionError] when the sample rate is zero, after the text was
    appended. *)
Definition process_audio (self : AMDSession R) (audio_data : bytes)
  : AMDSession R * Completion (option Analysis) :=
  if decision_made self then (self, Return (final_result self))
  else
    let '(accepted, rec) := AcceptWaveform (recognizer self) audio_data in
    if accepted then
      let '(text, rec) := Result rec in
      let self := set_recognizer self rec in
      if truthy text then
        let self :=
          set_accumulated_text self (accumulated_text self ++ u " " ++ text) in
        if (sample_rate self * 2 =? 0)%Z then (self, Raise ZeroDivisionError)
        else
          let self :=
            set_total_speech_duration self
              (total_speech_duration self
               + inject_Z (len audio_data) / inject_Z (sample_rate self * 2)) in
          let analysis :=
            analyze_transcription lower (strip (accumulated_text self))
                                  (total_speech_duration self) in
          if Qle_bool 0.70 (confidence analysis) then
            let final := with_call_id (session_call_id self) analysis in
            (decide_with self final, Return (Some final))
          else (self, Return None)
      else (self, Return None)
    else
      let '(partial_text, rec) := PartialResult rec in
      let self := set_recognizer self rec in
      if truthy partial_text then
        let quick_analysis := analyze_transcription lower partial_text 0 in
        if Outcome_eqb (result quick_analysis) MACHINE
           && Qle_bool 0.85 (confidence quick_analysis)
        then
          let final :=
            with_partial (with_call_id (session_call_id self) quick_analysis) in
          (decide_with self final, Return (Some final))
        else (self, Return None)
      else (self, Return None).

(** [AMDSession.force_decision] *)
Definition force_decision (self : AMDSession R)
  : AMDSession R * option Analysis :=
  if decision_made self then (self, final_result self)
  else
    let '(final_text, rec) := FinalResult (recognizer self) in
    let self := set_recognizer self rec in
    let self :=
      if truthy final_text
      then set_accumulated_text self (accumulated_text self ++ u " " ++ final_text)
      else self in
    let analysis :=
      analyze_transcription lower (strip (accumulated_text self))
                            (total_speech_duration self) in
    let final := with_forced (with_call_id (session_call_id self) analysis) in
    (decide_with self final, Some final).

(** A call on a session, and the session it leaves behind. *)
Inductive Call : Type :=
| CallProcessAudio (audio_data : bytes)
| CallForceDecision.

Definition after_call (self : AMDSession R) (c : Call) : AMDSession R :=
  match c with
  | CallProcessAudio audio_data => fst (process_audio self audio_data)
  | CallForceDecision => fst (force_decision self)
  end.

Definition after_calls (self : AMDSession R) (cs : list Call) : AMDSession R :=
  fold_left after_call cs self.

End Session.

(** ** The registry and the handlers ([app/main.py])

    Sessions are objects: the registry [active_sessions] maps a call
    identifier to a reference, and [heap] holds the object behind each
    reference. *)

Record World (R : Type) : Type := mkWorld {
  heap : gmap nat (AMDSession R);
  active_sessions : gmap (list N) nat
}.
Arguments mkWorld {R}.
Arguments heap {R}.
Arguments active_sessions {R}.

(** What [websocket.receive_bytes()] under [asyncio.wait_for(..., 0.5)]
    brings in one turn of the loop. *)
Inductive Received : Type :=
| Bytes (audio_data : bytes)
| TimeoutError
| WebSocketDisconnect.

(** One turn of the loop as the environment fixes it: the reading
    [elapsed] of the clock at the top of the turn, and what the receive of
    that turn brings if the turn gets to it. *)
Record Turn : Type := mkTurn {
  elapsed : Q;
  received : Received
}.

(** Payloads of [websocket.send_json]. *)
Inductive Message : Type :=
| Decision (r : Analysis)
| Null
| Error (e : Exception).

Definition message_of (result : option Analysis) : Message :=
  match result with
  | Some r => Decision r
  | None => Null
  end.

(** What a handler did, in order. *)
Inductive Event : Type :=
| ProcessAudio
| ForceDecision
| Send (m : Message).

Inductive Status : Set :=
| Running        (* the loop waits for its next turn *)
| Closed         (* left the loop by [break] *)
| Disconnected   (* [WebSocketDisconnect] *)
| Failed.        (* another exception *)

Section Handlers.

Variable lower : str -> str.
Context {R : Type} `{Recognizer R}.

(** [session = AMDSession(amd_detector, call_id, sample_rate)] followed by
    [active_sessions[call_id] = session], as [websocket_amd] and
    [websocket_stream] both do; gives the reference of the new session. *)
Definition create_session (w : World R) (call_id : str) (sample_rate : Z)
  : nat * World R :=
  let session := fresh (dom (heap w)) in
  (session,
   mkWorld (<[session := new_session call_id sample_rate]> (heap w))
           (<[call_id := session]> (active_sessions w))).

(** [if call_id in active_sessions: del active_sessions[call_id]] *)
Definition discard_session (call_id : str) (registry : gmap (list N) nat)
  : gmap (list N) nat :=
  match registry !! call_id with
  | Some _ => delete call_id registry
  | None => registry
  end.

(** The [while True] loop of [websocket_amd], run against the turns the
    environment supplies.  When the turns are used up the loop is still
    [Running]. *)
Fixpoint stream_loop (session : AMDSession R) (turns : list Turn)
  : AMDSession R * list Event * Status :=
  match turns with
  | [] => (session, [], Running)
  | turn :: turns' =>
      if Qlt_bool AMD_DECISION_TIMEOUT_SECONDS (elapsed turn) then
        let '(session, result) := force_decision lower session in
        (session, [ForceDecision; Send (message_of result)], Closed)
      else
        match received turn with
        | Bytes audio_data =>
            match process_audio lower session audio_data with
            | (session, Return (Some result)) =>
                (session, [ProcessAudio; Send (Decision result)], Closed)
            | (session, Return None) =>
                let '(session, events, status) := stream_loop session turns' in
                (session, ProcessAudio :: events, status)
            | (session, Raise e) =>
                (session, [ProcessAudio; Send (Error e)], Failed)
            end
        | TimeoutError => stream_loop session turns'
        | WebSocketDisconnect => (session, [], Disconnected)
        end
  end.

(** [websocket_amd], with the model loaded. *)
Definition websocket_amd (w : World R) (call_id : str) (turns : list Turn)
  : World R * list Event * Status :=
  let '(ref, w) := create_session w call_id 8000 in
  let '(session, events, status) :=
    stream_loop (new_session call_id 8000) turns in
  let registry :=
    match status with
    | Running => active_sessions w
    | _ => discard_session call_id (active_sessions w)
    end in
  (mkWorld (<[ref := session]> (heap w)) registry, events, status).

(** [analyze_audio], with the model loaded and the audio decoded. *)
Definition analyze_audio (call_id : str) (audio_data : bytes) (sample_rate : Z)
  : Completion (option Analysis) :=
  let session := new_session call_id sample_rate in
  match process_audio lower session audio_data with
  | (session, Return (Some result)) => Return (Some result)
  | (session, Return None) => Return (snd (force_decision lower session))
  | (session, Raise e) => Raise e
  end.

End Handlers.

(** ** The handler configured by its first message ([websocket_stream])

    The first message is a JSON object; the handler reads two keys of it
    with [config.get(key, default)].  The embedding keeps the two values,
    each possibly absent, with a string for [call_id] and an integer for
    [sample_rate]. *)

Record Config : Type := mkConfig {
  config_call_id : option str;
  config_sample_rate : option Z
}.

(** What [websocket.receive_json()] brings first: the configuration, a
    disconnect, or text that is not JSON. *)
Inductive FirstMessage : Type :=
| ConfigObject (config : Config)
| ConfigDisconnect
| ConfigInvalid.

(** What [websocket_stream] did, in order: the [{"status": "ready", ...}]
    message, then the steps of its loop. *)
Inductive StreamEvent : Type :=
| SendReady (call_id : str)
| InLoop (e : Event).

Section StreamHandler.

Variable lower : str -> str.
Context {R : Type} `{Recognizer R}.

(** The [while True] loop of [websocket_stream].  It is the loop of
    [websocket_amd], but the handler sends nothing when a call raises. *)
Fixpoint configured_loop (session : AMDSession R) (turns : list Turn)
  : AMDSession R * list Event * Status :=
  match turns with
  | [] => (session, [], Running)
  | turn :: turns' =>
      if Qlt_bool AMD_DECISION_TIMEOUT_SECONDS (elapsed turn) then
        let '(session, result) := force_decision lower session in
        (session, [ForceDecision; Send (message_of result)], Closed)
      else
        match received turn with
        | Bytes audio_data =>
            match process_audio lower session audio_data with
            | (session, Return (Some result)) =>
                (session, [ProcessAudio; Send (Decision result)], Closed)
            | (session, Return None) =>
                let '(session, events, status) := configured_loop session turns' in
                (session, ProcessAudio :: events, status)
            | (session, Raise e) => (session, [ProcessAudio], Failed)
            end
        | TimeoutError => configured_loop session turns'
        | WebSocketDisconnect => (session, [], Disconnected)
        end
  end.

(** [websocket_stream], with the model loaded.  When no configuration
    arrives [call_id] is still [None] in the [finally] clause, which then
    leaves the registry alone; so it does for an empty [call_id]. *)
Definition websocket_stream (w : World R) (first : FirstMessage)
    (turns : list Turn) : World R * list StreamEvent * Status :=
  match first with
  | ConfigDisconnect => (w, [], Disconnected)
  | ConfigInvalid => (w, [], Failed)
  | ConfigObject config =>
      let call_id := default (u "unknown") (config_call_id config) in
      let sample_rate := default 8000%Z (config_sample_rate config) in
      let '(ref, w) := create_session w call_id sample_rate in
      let '(session, events, status) :=
        configured_loop (new_session call_id sample_rate) turns in
      let registry :=
        match status with
        | Running => active_sessions w
        | _ =>
            if truthy call_id
            then discard_session call_id (active_sessions w)
            else active_sessions w
        end in
      (mkWorld (<[ref := session]> (heap w)) registry,
       SendReady call_id :: List.map InLoop events, status)
  end.


End StreamHandler.

(** ** Instances to run the model on

    [lower_latin1] is [str.lower] on strings of the Basic Latin and Latin-1
    Supplement blocks (the only strings it is applied to below). *)

Definition to_lower (c : N) : N :=
  if ((65 <=? c) && (c <=? 90))
     || ((192 <=? c) && (c <=? 222) && negb (c =? 215))
  then c + 32 else c.

Definition lower_latin1 (s : str) : str := List.map to_lower s.

(** A recognizer that follows a script: for each frame it is fed, either a
    completed utterance or the partial text so far.  [scripted script] is
    the engine whose recognizers all start with [script]. *)
Inductive Heard : Type :=
| Final (text : str)
| Partial (text : str).

Definition scripted (script : list Heard) : Recognizer (list Heard) := {|
  create_recognizer := fun _ => script;
  AcceptWaveform := fun r _ =>
    match r with
    | Final _ :: _ => (true, r)
    | _ => (false, r)
    end;
  Result := fun r =>
    match r with
    | Final text :: r' => (text, r')
    | _ => ([], r)
    end;
  PartialResult := fun r =>
    match r with
    | Partial text :: r' => (text, r')
    | _ => ([], r)
    end;
  FinalResult := fun r => ([], r)
|}.

(** ** The test table ([test_amd.py])

    [test_cases] is the table of [test_detector]: text, duration, expected
    outcome.  [test_detector] is its verdict, true when no case fails. *)

Definition test_cases : list (string * Q * Outcome) :=
  [ ("hola", 0.5, HUMAN);
    ("alo", 0.3, HUMAN);
    ("digame", 0.4, HUMAN);
    ("si bueno", 0.6, HUMAN);
    ("quien habla", 0.8, HUMAN);
    ("el numero que usted marco no se encuentra disponible", 3.5, MACHINE);
    ("deje su mensaje despues del tono", 2.8, MACHINE);
    ("buzon de voz por favor deje su mensaje", 3.0, MACHINE);
    ("gracias por llamar en este momento no podemos atenderle", 4.0, MACHINE);
    ("bienvenido ha comunicado con el buzon de mensajes", 3.5, MACHINE);
    ("", 0, UNKNOWN) ]%string%Q.

Definition test_detector (lower : str -> str) : bool :=
  forallb
    (fun '(texto, duracion, esperado) =>
       Outcome_eqb (result (analyze_transcription lower (u texto) duracion))
                   esperado)
    test_cases.

(** * Vocabulary of the properties *)

(** The five ways [analyze_transcription] returns, by the rule that fired. *)
Inductive Rule : Set :=
  RuleEmpty | RuleKeyword | RuleLongSpeech | RuleGreeting | RuleShort | RuleDefault.

Definition rule_of (a : Analysis) : Rule :=
  match reason a with
  | NoSpeech => RuleEmpty
  | KeywordsDetected _ => RuleKeyword
  | LongSpeech _ _ => RuleLongSpeech
  | HumanGreeting _ => RuleGreeting
  | ShortAnswer => RuleShort
  | Undetermined => RuleDefault
  end.

(** A decision is either forced, or it passed the threshold of the path
    that took it. *)
Definition earned (r : Analysis) : Prop :=
  forced r = None /\ (0.70 <= confidence r)%Q /\ result r <> UNKNOWN.

Definition well_formed {R} (self : AMDSession R) : Prop :=
  match final_result self with
  | None => decision_made self = false
  | Some r => decision_made self = true /\ (forced r = Some true \/ earned r)
  end.

(** The recognizer answers each frame of [frames], in order, with a partial
    utterance whose text satisfies [P]. *)
Inductive only_partials {R : Type} `{Recognizer R} (P : str -> Prop)
  : R -> list bytes -> Prop :=
| only_partials_nil (rec : R) : only_partials P rec []
| only_partials_cons (rec rec1 rec2 : R) audio_data partial_text frames :
    AcceptWaveform rec audio_data = (false, rec1) ->
    PartialResult rec1 = (partial_text, rec2) ->
    P partial_text ->
    only_partials P rec2 frames ->
    only_partials P rec (audio_data :: frames).

(** The number of voicemail phrases found in a text as the classifier
    normalizes it. *)
Abbreviation match_count lower text :=
  (length (keywords_found (strip (lower text)))).

(** The messages sent, in order. *)
Fixpoint sent (events : list Event) : list Message :=
  match events with
  | [] => []
  | Send m :: events' => m :: sent events'
  | _ :: events' => sent events'
  end.

(** How many times [force_decision] was called. *)
Fixpoint times_forced (events : list Event) : nat :=
  match events with
  | [] => 0%nat
  | ForceDecision :: events' => S (times_forced events')
  | _ :: events' => times_forced events'
  end.

Definition past_deadline (turn : Turn) : Prop :=
  (AMD_DECISION_TIMEOUT_SECONDS < elapsed turn)%Q.

Definition connected (turn : Turn) : Prop :=
  received turn <> WebSocketDisconnect.

(** How the loop stands after some turns: still waiting, with nothing sent
    and the deadline not yet seen passed, or closed after exactly one
    decision. *)
Definition loop_outcome {R} (turns : list Turn)
    (out : AMDSession R * list Event * Status) : Prop :=
  let '(session, events, status) := out in
  (status = Running
   /\ sent events = [] /\ times_forced events = 0%nat
   /\ Forall (fun turn => ~ past_deadline turn) turns
   /\ decision_made session = false)
  \/ (status = Closed
      /\ exists before r,
           events = before ++ [Send (Decision r)]
           /\ sent before = []
           /\ final_result session = Some r
           /\ ((times_forced before = 1%nat /\ forced r = Some true)
               \/ (times_forced before = 0%nat /\ forced r = None))).

(** A call on which nothing is ever heard: four turns without audio, the
    last one past the deadline. *)
Definition silence : list Turn :=
  [mkTurn 0.0 TimeoutError; mkTurn 1.2 TimeoutError;
   mkTurn 2.4 TimeoutError; mkTurn 3.6 TimeoutError].

(** The classifier scans the normalized text.  A phrase that occurs in the
    text as given still occurs after normalization: [strip] removes
    whitespace at the two ends only and no phrase starts or ends with
    whitespace, and [lower] leaves the characters of the phrases, which are
    lower-case already, where they are.  The latter is a property of
    [str.lower]; it is a hypothesis here, and holds of [lower_latin1]. *)
Definition keeps_keywords (lower : str -> str) : Prop :=
  forall k text, In k VOICEMAIL_KEYWORDS -> occurs_in k text ->
                 occurs_in k (lower text).

Definition no_space_at_ends (k : str) : bool :=
  match k, rev k with
  | first :: _, last :: _ => negb (isspace first) && negb (isspace last)
  | _, _ => false
  end.

(** ** Floating point

    The confidences are binary64 numbers in the program.  The only one that
    is computed is that of the keyword rule; [keyword_confidence_float] is
    that computation in binary64, for [n] keywords found. *)

Fixpoint float_of_nat (n : nat) : float :=
  match n with
  | O => 0%float
  | S n' => (float_of_nat n' + 1)%float
  end.

#[warnings="-inexact-float"]
Definition keyword_confidence_float (n : nat) : float :=
  let sum := (0.7 + float_of_nat n * 0.1)%float in
  if PrimFloat.ltb sum 0.95%float then sum else 0.95%float.

(** The same in the rationals, as [analyze_transcription] has it. *)
Definition keyword_confidence (n : nat) : Q :=
  py_min 0.95 (0.7 + inject_Z (Z.of_nat n) * 0.1).

(** The constant confidences, in binary64 and in the rationals. *)
#[warnings="-inexact-float"]
Definition constant_confidences : list (float * Q) :=
  [ (0.0%float, 0.0%Q); (0.75%float, 0.75%Q); (0.85%float, 0.85%Q);
    (0.70%float, 0.70%Q); (0.5%float, 0.5%Q) ].

(** The two comparisons the session makes on a confidence. *)
#[warnings="-inexact-float"]
Definition same_comparisons (f : float) (q : Q) : bool :=
  Bool.eqb (PrimFloat.leb 0.70%float f) (Qle_bool 0.70 q)
  && Bool.eqb (PrimFloat.leb 0.85%float f) (Qle_bool 0.85 q).

(** ** How a session came to its decision

    The three places that store a decision, each with what it stores: the
    classification of the whole transcript after a completed utterance, when
    its confidence reaches 0.70; the classification of one partial text at
    duration 0, when it is MACHINE with confidence 0.85 or more; and the
    classification of the whole transcript when the decision is forced. *)
Inductive decided_by (lower : str -> str) {R : Type} (self : AMDSession R)
  : Analysis -> Prop :=
| by_utterance :
    let analysis :=
      analyze_transcription lower (strip (accumulated_text self))
                            (total_speech_duration self) in
    (0.70 <= confidence analysis)%Q ->
    decided_by lower self (with_call_id (session_call_id self) analysis)
| by_partial (partial_text : str) :
    let quick := analyze_transcription lower partial_text 0 in
    result quick = MACHINE ->
    (0.85 <= confidence quick)%Q ->
    decided_by lower self
      (with_partial (with_call_id (session_call_id self) quick))
| by_force :
    let analysis :=
      analyze_transcription lower (strip (accumulated_text self))
                            (total_speech_duration self) in
    decided_by lower self
      (with_forced (with_call_id (session_call_id self) analysis)).

(** The stored decision and the flag agree, and the decision is one the
    session can account for. *)
Definition coherent (lower : str -> str) {R : Type} (self : AMDSession R)
  : Prop :=
  match final_result self with
  | None => decision_made self = false
  | Some r => decision_made self = true /\ decided_by lower self r
  end.

(** The recognizer answers each frame of [frames], in order, with an empty
    text, be it a completed utterance or a partial one. *)
Inductive hears_nothing {R : Type} `{Recognizer R} : R -> list bytes -> Prop :=
| hears_nothing_nil (rec : R) : hears_nothing rec []
| hears_nothing_completed (rec rec1 rec2 : R) audio_data frames :
    AcceptWaveform rec audio_data = (true, rec1) ->
    Result rec1 = ([], rec2) ->
    hears_nothing rec2 frames ->
    hears_nothing rec (audio_data :: frames)
| hears_nothing_partial (rec rec1 rec2 : R) audio_data frames :
    AcceptWaveform rec audio_data = (false, rec1) ->
    PartialResult rec1 = ([], rec2) ->
    hears_nothing rec2 frames ->
    hears_nothing rec (audio_data :: frames).

(** The events of a handler that are not the sending of an error message. *)
Fixpoint without_errors (events : list Event) : list Event :=
  match events with
  | [] => []
  | Send (Error _) :: events' => without_errors events'
  | e :: events' => e :: without_errors events'
  end.

Definition disconnects (turn : Turn) : Prop :=
  received turn = WebSocketDisconnect.

(** How a loop started on a session without decision stands after some
    turns, by its status. *)
Definition loop_summary {R} (self : AMDSession R) (turns : list Turn)
    (out : AMDSession R * list Event * Status) : Prop :=
  let '(session, events, status) := out in
  match status with
  | Running =>
      sent events = [] /\ times_forced events = 0%nat
      /\ decision_made session = false
      /\ Forall (fun turn => ~ past_deadline turn) turns
      /\ Forall connected turns
  | Disconnected =>
      sent events = [] /\ times_forced events = 0%nat
      /\ decision_made session = false
      /\ Exists disconnects turns
  | Closed =>
      exists before r,
        events = before ++ [Send (Decision r)]
        /\ sent before = []
        /\ final_result session = Some r
        /\ ((times_forced before = 1%nat /\ forced r = Some true
             /\ Exists past_deadline turns)
            \/ (times_forced before = 0%nat /\ forced r = None))
  | Failed =>
      sample_rate self = 0%Z
      /\ exists before e,
           events = before ++ [Send (Error e)]
           /\ sent before = [] /\ times_forced before = 0%nat
  end.

(** The audio of the turns that bring some, in order. *)
Fixpoint frames_of (turns : list Turn) : list bytes :=
  match turns with
  | [] => []
  | turn :: turns' =>
      match received turn with
      | Bytes audio_data => audio_data :: frames_of turns'
      | _ => frames_of turns'
      end
  end.

(** A loop started on the session [start] and run against [turns] ends in
    [session] after the events [events], having sent the decision [r]:
    there is a first turn that decides.  No turn before it is past the
    deadline, and the audio of those turns, fed to [process_audio] in
    order, brought no decision.  At the deciding turn either the deadline
    is past, and [r] is what [force_decision] returns, or it is not, and
    [r] is what [process_audio] returns on the audio of that turn.  The
    events are one [ProcessAudio] for each frame before, then the deciding
    call, then the sending of [r]. *)
Definition loop_decides (lower : str -> str) {R : Type} `{Recognizer R}
    (start : AMDSession R) (turns : list Turn)
    (session : AMDSession R) (events : list Event) (r : Analysis) : Prop :=
  exists waiting deciding rest,
    turns = waiting ++ deciding :: rest
    /\ Forall (fun turn => ~ past_deadline turn) waiting
    /\ decision_made
         (after_calls lower start
            (List.map CallProcessAudio (frames_of waiting))) = false
    /\ final_result session = Some r
    /\ ((past_deadline deciding
         /\ force_decision lower
              (after_calls lower start
                 (List.map CallProcessAudio (frames_of waiting)))
            = (session, Some r)
         /\ events
            = List.map (fun _ => ProcessAudio) (frames_of waiting)
              ++ [ForceDecision; Send (Decision r)])
        \/ (~ past_deadline deciding
            /\ exists audio_data,
                 received deciding = Bytes audio_data
                 /\ process_audio lower
                      (after_calls lower start
                         (List.map CallProcessAudio (frames_of waiting)))
                      audio_data
                    = (session, Return (Some r))
                 /\ events
                    = List.map (fun _ => ProcessAudio) (frames_of waiting)
                      ++ [ProcessAudio; Send (Decision r)])).

(** * Properties *)

(** ** Strings *)

Lemma startswith_spec (p s : str) :
  startswith s p = true <-> exists b, s = p ++ b.
Proof.
  revert s; induction p as [|a p IH]; intros s; simpl.
  - split; [intros _; exists s; reflexivity | reflexivity].
  - destruct s as [|b s]; simpl.
    + split; [discriminate | intros [k Hk]; discriminate].
    + rewrite andb_true_iff, N.eqb_eq, IH. split.
      * intros [-> [k ->]]. exists k. reflexivity.
      * intros [k Hk]. injection Hk as -> ->. split; [reflexivity | exists k; reflexivity].
Qed.

Lemma str_in_spec (p s : str) : str_in p s = true <-> occurs_in p s.
Proof.
  unfold occurs_in. induction s as [|c s IH].
  - simpl. rewrite orb_false_r, startswith_spec. split.
    + intros [b Hb]. exists [], b. exact Hb.
    + intros [a [b Hab]]. destruct a; [exists b; exact Hab | discriminate].
  - cbn [str_in]. rewrite orb_true_iff, startswith_spec, IH. split.
    + intros [[b Hb] | [a [b Hab]]].
      * exists [], b. exact Hb.
      * exists (c :: a), b. rewrite Hab. reflexivity.
    + intros [a [b Hab]]. destruct a as [|c' a].
      * left. exists b. exact Hab.
      * right. injection Hab as _ Hab. exists a, b. exact Hab.
Qed.

Lemma truthy_false (s : str) : truthy s = false <-> s = [].
Proof. destruct s; simpl; split; congruence. Qed.

Lemma truthy_false_not (s : str) : truthy s = true -> s <> [].
Proof. destruct s; simpl; congruence. Qed.

(** ** The classifier *)

Lemma Qlt_bool_iff (x y : Q) : Qlt_bool x y = true <-> (x < y)%Q.
Proof.
  unfold Qlt_bool. rewrite negb_true_iff. split.
  - intros Hn. apply Qnot_le_lt. intros Hle.
    apply Qle_bool_iff in Hle. congruence.
  - intros Hlt. destruct (Qle_bool y x) eqn:E; [|reflexivity].
    apply Qle_bool_iff in E. apply Qlt_not_le in Hlt. contradiction.
Qed.

Lemma Qlt_bool_false (x y : Q) : Qlt_bool x y = false <-> (y <= x)%Q.
Proof.
  unfold Qlt_bool. rewrite negb_false_iff. apply Qle_bool_iff.
Qed.

Lemma keyword_confidence_range (n : Z) :
  (1 <= n)%Z ->
  (0.8 <= py_min 0.95 (0.7 + inject_Z n * 0.1) <= 0.95)%Q.
Proof.
  intros Hn. assert (Hq : (1 <= inject_Z n)%Q).
  { change 1%Q with (inject_Z 1). rewrite <- Zle_Qle. exact Hn. }
  unfold py_min. destruct (Qlt_bool _ _) eqn:E.
  - apply Qlt_bool_iff in E. split; lra.
  - split; lra.
Qed.

Lemma keywords_found_In (t k : str) :
  In k (keywords_found t) <-> In k VOICEMAIL_KEYWORDS /\ str_in k t = true.
Proof. unfold keywords_found. exact (List.filter_In _ k VOICEMAIL_KEYWORDS). Qed.

Lemma VOICEMAIL_KEYWORDS_NoDup : List.NoDup VOICEMAIL_KEYWORDS.
Proof.
  apply NoDup_ListNoDup.
  apply (bool_decide_unpack (NoDup VOICEMAIL_KEYWORDS)). vm_compute. exact I.
Qed.

Lemma keywords_found_NoDup (t : str) : List.NoDup (keywords_found t).
Proof. unfold keywords_found. apply List.NoDup_filter, VOICEMAIL_KEYWORDS_NoDup. Qed.

Lemma len_pos_iff {A} (l : list A) : (1 <=? len l)%Z = true <-> l <> [].
Proof.
  unfold len. destruct l; simpl; split; try congruence; try discriminate.
  intros _. apply Z.leb_le. lia.
Qed.

Lemma analyze_by_rule lower text d :
  let a := analyze_transcription lower text d in
  match rule_of a with
  | RuleEmpty => result a = UNKNOWN /\ confidence a = 0.0%Q
  | RuleKeyword => result a = MACHINE /\ (0.8 <= confidence a <= 0.95)%Q
  | RuleLongSpeech => result a = MACHINE /\ confidence a = 0.75%Q
  | RuleGreeting => result a = HUMAN /\ confidence a = 0.85%Q
  | RuleShort => result a = HUMAN /\ confidence a = 0.70%Q
  | RuleDefault => result a = UNKNOWN /\ confidence a = 0.5%Q
  end.
Proof.
  unfold analyze_transcription.
  destruct (negb (truthy _)); [simpl; auto|].
  destruct (1 <=? len _)%Z eqn:Ek.
  { cbn [rule_of reason result confidence]. split; [reflexivity|].
    apply keyword_confidence_range, Z.leb_le, Ek. }
  destruct (if Qlt_bool _ _ then _ else _); [simpl; auto|].
  destruct (_ && existsb _ _); [simpl; auto|].
  destruct (_ && _); simpl; auto.
Qed.

Lemma analyze_threshold lower text d :
  let a := analyze_transcription lower text d in
  (0 <= confidence a <= 1)%Q
  /\ ((confidence a < 0.70)%Q <-> result a = UNKNOWN).
Proof.
  intros a. pose proof (analyze_by_rule lower text d) as Hr.
  fold a in Hr. cbv zeta in Hr.
  destruct (rule_of a); destruct Hr as [Hres Hc];
    try rewrite Hc; rewrite Hres;
    (split; [split; try lra; try (unfold Qle; simpl; lia)
            | split; intros Hx; try reflexivity; try discriminate;
              try lra; try (exfalso; revert Hx; unfold Qlt; simpl; lia);
              try (unfold Qlt; simpl; lia) ]).
Qed.

(** ** The session *)

Ltac break_step :=
  repeat match goal with
    | |- context [let '(_, _) := ?e in _] => destruct e eqn:?
    | |- context [if ?c then _ else _] => destruct c eqn:?
    end.

Section SessionFacts.

Variable lower : str -> str.
Context {R : Type} `{Recognizer R}.

Lemma analysis_forced_none text d :
  forced (analyze_transcription lower text d) = None
  /\ partial (analyze_transcription lower text d) = None
  /\ call_id (analyze_transcription lower text d) = None.
Proof. unfold analyze_transcription. break_step; simpl; auto. Qed.

Lemma passed_threshold_earned id text d :
  Qle_bool 0.70 (confidence (analyze_transcription lower text d)) = true ->
  earned (with_call_id id (analyze_transcription lower text d)).
Proof.
  intros Hc. apply Qle_bool_iff in Hc.
  destruct (analyze_threshold lower text d) as [_ Hu].
  destruct (analysis_forced_none text d) as [Hf _].
  unfold earned; simpl. repeat split; auto.
  intros Hr. apply Hu in Hr. lra.
Qed.

Lemma fast_exit_earned id text d :
  Qle_bool 0.85 (confidence (analyze_transcription lower text d)) = true ->
  earned (with_partial (with_call_id id (analyze_transcription lower text d))).
Proof.
  intros Hc. apply Qle_bool_iff in Hc.
  destruct (analyze_threshold lower text d) as [_ Hu].
  destruct (analysis_forced_none text d) as [Hf _].
  unfold earned; simpl. repeat split; auto; try lra.
  intros Hr. apply Hu in Hr. lra.
Qed.

Lemma new_session_well_formed id sr : well_formed (new_session id sr).
Proof. reflexivity. Qed.

Lemma process_audio_well_formed (self : AMDSession R) audio_data :
  well_formed self -> well_formed (fst (process_audio lower self audio_data)).
Proof.
  intros Hwf. unfold process_audio.
  destruct (decision_made self) eqn:Ed; [exact Hwf|].
  unfold well_formed in *.
  destruct (final_result self) as [r|] eqn:Ef; [destruct Hwf; congruence|].
  break_step; simpl; try rewrite Ef; try rewrite Ed; try reflexivity;
    (split; [reflexivity | right]).
  - match goal with Hq : Qle_bool _ _ = true |- _ =>
      exact (passed_threshold_earned _ _ _ Hq) end.
  - match goal with Hq : _ && _ = true |- _ =>
      apply andb_true_iff in Hq; destruct Hq as [_ Hq];
      exact (fast_exit_earned _ _ _ Hq) end.
Qed.

Lemma force_decision_well_formed (self : AMDSession R) :
  well_formed self -> well_formed (fst (force_decision lower self)).
Proof.
  intros Hwf. unfold force_decision.
  destruct (decision_made self) eqn:Ed; [exact Hwf|].
  unfold well_formed. break_step; simpl; auto.
Qed.

Lemma after_calls_well_formed (cs : list Call) (self : AMDSession R) :
  well_formed self -> well_formed (after_calls lower self cs).
Proof.
  unfold after_calls. revert self.
  induction cs as [|c cs IH]; intros self Hwf; simpl; [exact Hwf|].
  apply IH. destruct c; simpl.
  - apply process_audio_well_formed, Hwf.
  - apply force_decision_well_formed, Hwf.
Qed.

End SessionFacts.

(** * The properties of the design document *)

(** ** C2: confidence range and the 0.70 threshold *)

(** C2.  For every text and duration the confidence of the classifier is
    between 0 and 1, a confidence below 0.70 comes with UNKNOWN, and every
    HUMAN or MACHINE result has confidence at least 0.70; so has every
    decision a session took without being forced, whatever calls led to it. *)
Theorem confidence_threshold
    (lower : str -> str) {R : Type} `{Recognizer R}
    (text : str) (speech_duration : Q)
    (id : str) (rate : Z) (calls : list Call) :
  let a := analyze_transcription lower text speech_duration in
  (0 <= confidence a <= 1)%Q
  /\ ((confidence a < 0.70)%Q -> result a = UNKNOWN)
  /\ (result a = HUMAN \/ result a = MACHINE -> (0.70 <= confidence a)%Q)
  /\ (forall r,
        final_result (after_calls lower (new_session id rate) calls) = Some r ->
        forced r <> Some true ->
        (0.70 <= confidence r)%Q /\ (result r = HUMAN \/ result r = MACHINE)).
Proof.
  intros a. destruct (analyze_threshold lower text speech_duration) as [Hb Hu].
  fold a in Hb, Hu. split; [exact Hb|]. split; [apply Hu|]. split.
  - intros Hr. destruct (Qlt_le_dec (confidence a) 0.70) as [Hlt|Hle]; [|exact Hle].
    apply Hu in Hlt. destruct Hr; congruence.
  - intros r Hfinal Hforced.
    pose proof (after_calls_well_formed lower calls _
                  (new_session_well_formed id rate)) as Hwf.
    unfold well_formed in Hwf. rewrite Hfinal in Hwf.
    destruct Hwf as [_ [Hf | (_ & Hc & Hn)]]; [contradiction|].
    split; [exact Hc|]. destruct (result r); auto. congruence.
Qed.

(** ** C3: the keyword rule *)

Lemma py_min_Qmin (a b : Q) : (py_min a b == Qmin a b)%Q.
Proof.
  unfold py_min. destruct (Qlt_bool b a) eqn:E.
  - apply Qlt_bool_iff in E. symmetry. apply Q.min_r. lra.
  - apply Qlt_bool_false in E. symmetry. apply Q.min_l. exact E.
Qed.

Lemma VOICEMAIL_KEYWORDS_nonempty (k : str) : In k VOICEMAIL_KEYWORDS -> k <> [].
Proof.
  intros Hk. apply truthy_false_not. revert k Hk.
  apply (proj1 (List.Forall_forall (fun k => truthy k = true) VOICEMAIL_KEYWORDS)).
  repeat constructor.
Qed.

Lemma occurs_in_nonempty (p s : str) : p <> [] -> occurs_in p s -> s <> [].
Proof.
  intros Hp (a & b & ->) Hs. apply app_eq_nil in Hs as [_ Hs].
  apply app_eq_nil in Hs as [Hs _]. contradiction.
Qed.

Lemma analyze_keyword_case lower text d :
  let t := strip (lower text) in
  t <> [] -> keywords_found t <> [] ->
  analyze_transcription lower text d
  = mkAnalysis MACHINE
      (py_min 0.95 (0.7 + inject_Z (len (keywords_found t)) * 0.1))
      (KeywordsDetected (keywords_found t)) t (Some (keywords_found t))
      None None None.
Proof.
  intros t Ht Hk. unfold analyze_transcription. fold t.
  destruct t as [|c t'] eqn:Et; [contradiction|]. cbn [truthy negb].
  apply len_pos_iff in Hk. rewrite Hk. reflexivity.
Qed.

(** C3.  When a voicemail phrase occurs in the normalized text, the result
    is MACHINE whatever the duration, its keywords are exactly the phrases
    of the list that occur in the text, each once, and its confidence is
    min(0.95, 0.70 + 0.10 * n) for the number n of these phrases. *)
Theorem keyword_rule (lower : str -> str) (text : str) (speech_duration : Q) :
  let t := strip (lower text) in
  let a := analyze_transcription lower text speech_duration in
  (exists k, In k VOICEMAIL_KEYWORDS /\ occurs_in k t) ->
  exists matched,
    result a = MACHINE
    /\ keywords a = Some matched
    /\ (forall k, In k matched <-> In k VOICEMAIL_KEYWORDS /\ occurs_in k t)
    /\ List.NoDup matched
    /\ (confidence a == Qmin 0.95 (0.70 + 0.10 * inject_Z (len matched)))%Q.
Proof.
  intros t a (k & Hk & Hocc). exists (keywords_found t).
  assert (Ht : t <> []).
  { eapply occurs_in_nonempty; [apply VOICEMAIL_KEYWORDS_nonempty, Hk | exact Hocc]. }
  assert (Hf : keywords_found t <> []).
  { intros Hnil. assert (Hin : In k (keywords_found t)).
    { apply keywords_found_In. split; [exact Hk | apply str_in_spec, Hocc]. }
    rewrite Hnil in Hin. exact Hin. }
  unfold a. rewrite (analyze_keyword_case lower text speech_duration Ht Hf).
  cbn [result keywords confidence]. fold t.
  split; [reflexivity|]. split; [reflexivity|]. split.
  { intros k'. rewrite keywords_found_In, str_in_spec. reflexivity. }
  split; [apply keywords_found_NoDup|].
  rewrite py_min_Qmin. apply Q.min_compat; [reflexivity|]. ring.
Qed.

(** ** C4: the greeting rule *)

Lemma occurs_in_refl (s : str) : occurs_in s s.
Proof. exists [], []. rewrite app_nil_r. reflexivity. Qed.

Lemma occurs_in_app_r (p x s : str) : occurs_in p s -> occurs_in p (x ++ s).
Proof.
  intros (a & b & ->). exists (x ++ a), b. rewrite <- app_assoc. reflexivity.
Qed.

Lemma occurs_in_app_l (p x s : str) : occurs_in p s -> occurs_in p (s ++ x).
Proof.
  intros (a & b & ->). exists a, (b ++ x). rewrite <- !app_assoc. reflexivity.
Qed.

(** Every word of [split] is a contiguous run of the text. *)
Lemma split_from_occurs (s cur w : str) :
  In w (split_from cur s) -> occurs_in w (rev cur ++ s).
Proof.
  revert cur. induction s as [|c s IH]; intros cur Hw; simpl in Hw.
  - destruct cur as [|c0 cur]; [contradiction|].
    destruct Hw as [Hw|Hw]; [subst w | contradiction].
    rewrite app_nil_r. apply occurs_in_refl.
  - destruct (isspace c).
    + destruct cur as [|c0 cur].
      * apply IH in Hw. simpl in *. apply (occurs_in_app_r w [c] s), Hw.
      * destruct Hw as [Hw|Hw]; [subst w|].
        -- apply occurs_in_app_l, occurs_in_refl.
        -- apply IH in Hw. simpl in Hw.
           apply occurs_in_app_r. apply (occurs_in_app_r w [c] s), Hw.
    + apply IH in Hw. simpl in Hw. rewrite <- app_assoc in Hw. exact Hw.
Qed.

Lemma split_occurs (s w : str) : In w (split s) -> occurs_in w s.
Proof. intros Hw. apply (split_from_occurs s [] w), Hw. Qed.

Lemma analyze_short_case lower text d :
  let t := strip (lower text) in
  t <> [] -> keywords_found t = [] -> (length (split t) <= 3)%nat ->
  analyze_transcription lower text d
  = if existsb (fun greeting => str_in greeting t) human_greetings
    then mkAnalysis HUMAN 0.85 (HumanGreeting t) t None None None None
    else mkAnalysis HUMAN 0.70 ShortAnswer t None None None None.
Proof.
  intros t Ht Hk Hw. unfold analyze_transcription. fold t.
  destruct t as [|c t'] eqn:Et; [contradiction|]. cbn [truthy negb].
  rewrite Hk. cbn [len length Z.of_nat Z.leb Z.compare Z.eqb].
  replace (8 <? len (split (c :: t')))%Z with false
    by (symmetry; apply Z.ltb_ge; unfold len; lia).
  replace (len (split (c :: t')) <=? 3)%Z with true
    by (symmetry; apply Z.leb_le; unfold len; lia).
  replace (len (split (c :: t')) <=? 4)%Z with true
    by (symmetry; apply Z.leb_le; unfold len; lia).
  destruct (Qlt_bool _ _); cbn [andb]; reflexivity.
Qed.

Lemma greeting_occurs_iff (t : str) :
  existsb (fun greeting => str_in greeting t) human_greetings = true
  <-> exists g, In g human_greetings /\ occurs_in g t.
Proof.
  rewrite existsb_exists. split; intros (g & Hg & Ho); exists g;
    (split; [exact Hg | apply str_in_spec, Ho]).
Qed.

Lemma human_greetings_nonempty (g : str) : In g human_greetings -> g <> [].
Proof.
  intros Hg. apply truthy_false_not. revert g Hg.
  apply (proj1 (List.Forall_forall (fun g => truthy g = true) human_greetings)).
  repeat constructor.
Qed.

(** C4, as the code has it.  For a text without voicemail keyword and of at
    most 3 words after normalization, the result is HUMAN with confidence
    0.85 exactly when some entry of the greeting vocabulary occurs in the
    normalized text as a substring; a word equal to an entry is one way for
    that to happen, but the rule does not require it. *)
Theorem greeting_rule (lower : str -> str) (text : str) (speech_duration : Q) :
  let t := strip (lower text) in
  let a := analyze_transcription lower text speech_duration in
  keywords_found t = [] ->
  (length (split t) <= 3)%nat ->
  ((exists g, In g human_greetings /\ occurs_in g t)
   <-> result a = HUMAN /\ confidence a = 0.85%Q)
  /\ ((exists w, In w (split t) /\ In w human_greetings)
      -> result a = HUMAN /\ confidence a = 0.85%Q).
Proof.
  intros t a Hk Hw.
  assert (Hiff : (exists g, In g human_greetings /\ occurs_in g t)
                 <-> result a = HUMAN /\ confidence a = 0.85%Q).
  { destruct t as [|c t'] eqn:Et.
    - split.
      + intros (g & Hg & Ho). exfalso.
        exact (occurs_in_nonempty g [] (human_greetings_nonempty g Hg) Ho eq_refl).
      + unfold a, analyze_transcription. fold t. rewrite Et. simpl.
        intros [Hr _]. discriminate.
    - assert (Ht : t <> []) by (rewrite Et; discriminate).
      rewrite <- Et in *. unfold a.
      rewrite (analyze_short_case lower text speech_duration Ht Hk Hw). fold t.
      rewrite <- greeting_occurs_iff.
      destruct (existsb _ human_greetings); simpl; split; auto.
      + intros Hf. discriminate.
      + intros [_ Hc]. discriminate. }
  split; [exact Hiff|].
  intros (w & Hsplit & Hg). apply Hiff. exists w. split; [exact Hg|].
  apply split_occurs, Hsplit.
Qed.

(** The text "casi" has no voicemail keyword and a single word, which is
    not in the greeting vocabulary; it contains the entry "si", and the
    greeting rule fires. *)
Lemma greeting_inside_a_word :
  let t := strip (lower_latin1 (u "casi")) in
  let a := analyze_transcription lower_latin1 (u "casi") 0 in
  keywords_found t = []
  /\ split t = [u "casi"]
  /\ ~ In (u "casi") human_greetings
  /\ result a = HUMAN /\ confidence a = 0.85%Q /\ reason a = HumanGreeting t.
Proof.
  cbv zeta. split; [reflexivity|]. split; [reflexivity|]. split.
  - intros Hin. vm_compute in Hin.
    repeat (destruct Hin as [Hin|Hin]; [discriminate|]). exact Hin.
  - repeat split; reflexivity.
Qed.

Lemma greeting_rule_witness :
  let text := u "hola" in
  keywords_found (strip (lower_latin1 text)) = []
  /\ (length (split (strip (lower_latin1 text))) <= 3)%nat
  /\ (exists w, In w (split (strip (lower_latin1 text))) /\ In w human_greetings)
  /\ result (analyze_transcription lower_latin1 text 0.5) = HUMAN
  /\ confidence (analyze_transcription lower_latin1 text 0.5) = 0.85%Q.
Proof.
  cbv zeta.
  assert (Hk : keywords_found (strip (lower_latin1 (u "hola"))) = [])
    by reflexivity.
  assert (Hw : (length (split (strip (lower_latin1 (u "hola")))) <= 3)%nat)
    by (vm_compute; lia).
  assert (Hg : exists w, In w (split (strip (lower_latin1 (u "hola"))))
                         /\ In w human_greetings).
  { exists (u "hola"). split; [left; reflexivity|].
    right; right; left; reflexivity. }
  split; [exact Hk|]. split; [exact Hw|]. split; [exact Hg|].
  exact (proj2 (greeting_rule lower_latin1 (u "hola") 0.5 Hk Hw) Hg).
Defined.

Lemma keyword_rule_witness :
  (exists k, In k VOICEMAIL_KEYWORDS
             /\ occurs_in k (strip (lower_latin1 (u "buzon"))))
  /\ exists matched,
       result (analyze_transcription lower_latin1 (u "buzon") 0) = MACHINE
       /\ keywords (analyze_transcription lower_latin1 (u "buzon") 0)
          = Some matched.
Proof.
  assert (Hk : exists k, In k VOICEMAIL_KEYWORDS
                         /\ occurs_in k (strip (lower_latin1 (u "buzon")))).
  { exists (u "buzon"). split.
    - right; right; left; reflexivity.
    - apply occurs_in_refl. }
  split; [exact Hk|].
  destruct (keyword_rule lower_latin1 (u "buzon") 0 Hk)
    as (matched & Hr & Hkw & _).
  exists matched. split; [exact Hr | exact Hkw].
Defined.

Lemma confidence_threshold_witness :
  let a := analyze_transcription lower_latin1 (u "hola") 0.5 in
  let e := analyze_transcription lower_latin1 [] 0 in
  let s := after_calls (H := scripted [Final (u "hola")]) lower_latin1
             (new_session (H := scripted [Final (u "hola")]) (u "c1") 8000)
             [CallProcessAudio [Byte.x00; Byte.x00]] in
  ((confidence e < 0.70)%Q /\ result e = UNKNOWN)
  /\ ((result a = HUMAN \/ result a = MACHINE) /\ (0.70 <= confidence a)%Q)
  /\ exists r, final_result s = Some r /\ forced r <> Some true
               /\ (0.70 <= confidence r)%Q.
Proof.
  cbv zeta.
  pose proof (confidence_threshold (H := scripted [Final (u "hola")])
                lower_latin1 (u "hola") 0.5 (u "c1") 8000
                [CallProcessAudio [Byte.x00; Byte.x00]]) as Ha.
  pose proof (confidence_threshold (H := scripted [Final (u "hola")])
                lower_latin1 [] 0 (u "c1") 8000 []) as He.
  cbv zeta in Ha, He.
  destruct Ha as (_ & _ & Hhigh & Hsession). destruct He as (_ & Hlow & _).
  assert (Hc : (confidence (analyze_transcription lower_latin1 [] 0) < 0.70)%Q)
    by reflexivity.
  split; [exact (conj Hc (Hlow Hc))|].
  split; [exact (conj (or_introl eq_refl) (Hhigh (or_introl eq_refl)))|].
  eexists. split; [reflexivity|].
  assert (Hf : forced (with_call_id (u "c1")
                 (analyze_transcription lower_latin1
                    (strip ([] ++ u " " ++ u "hola"))
                    (0.0 + inject_Z (len [Byte.x00; Byte.x00])
                           / inject_Z (8000 * 2)))) <> Some true)
    by discriminate.
  split; [exact Hf|]. exact (proj1 (Hsession _ eq_refl Hf)).
Defined.

(** ** The session's two operations, case by case *)

Section SessionSteps.

Variable lower : str -> str.
Context {R : Type} `{Recognizer R}.

(** What [process_audio] leaves behind on a session without decision. *)
Lemma process_audio_undecided (self : AMDSession R) audio_data :
  decision_made self = false ->
  let self' := fst (process_audio lower self audio_data) in
  sample_rate self' = sample_rate self
  /\ session_call_id self' = session_call_id self
  /\ match snd (process_audio lower self audio_data) with
     | Return (Some r) =>
         earned r /\ decision_made self' = true /\ final_result self' = Some r
     | Return None =>
         decision_made self' = false /\ final_result self' = final_result self
     | Raise _ =>
         sample_rate self = 0%Z
         /\ decision_made self' = false
         /\ final_result self' = final_result self
         /\ total_speech_duration self' = total_speech_duration self
     end.
Proof.
  intros Hd. unfold process_audio. rewrite Hd.
  break_step; cbn;
    repeat match goal with |- _ /\ _ => split end; auto.
  - match goal with Hz : (_ =? 0)%Z = true |- _ =>
      apply Z.eqb_eq in Hz; cbn in Hz; lia end.
  - match goal with Hq : Qle_bool _ _ = true |- _ =>
      exact (passed_threshold_earned lower _ _ _ Hq) end.
  - match goal with Hq : _ && _ = true |- _ =>
      apply andb_true_iff in Hq; destruct Hq as [_ Hq];
      exact (fast_exit_earned lower _ _ _ Hq) end.
Qed.

Lemma process_audio_decided (self : AMDSession R) audio_data :
  decision_made self = true ->
  process_audio lower self audio_data = (self, Return (final_result self)).
Proof. intros Hd. unfold process_audio. rewrite Hd. reflexivity. Qed.

Lemma force_decision_decided (self : AMDSession R) :
  decision_made self = true ->
  force_decision lower self = (self, final_result self).
Proof. intros Hd. unfold force_decision. rewrite Hd. reflexivity. Qed.

Lemma force_decision_undecided (self : AMDSession R) :
  decision_made self = false ->
  let final_text := fst (FinalResult (recognizer self)) in
  let transcript :=
    if truthy final_text
    then accumulated_text self ++ u " " ++ final_text
    else accumulated_text self in
  let final :=
    with_forced
      (with_call_id (session_call_id self)
         (analyze_transcription lower (strip transcript)
                                (total_speech_duration self))) in
  force_decision lower self
  = (mkSession (session_call_id self) (sample_rate self)
               (snd (FinalResult (recognizer self)))
               transcript (total_speech_duration self) true (Some final),
     Some final).
Proof.
  intros Hd. unfold force_decision. rewrite Hd.
  destruct (FinalResult (recognizer self)) as [final_text rec].
  cbn [fst snd]. destruct (truthy final_text); reflexivity.
Qed.

Lemma after_call_decided (self : AMDSession R) (c : Call) :
  decision_made self = true -> after_call lower self c = self.
Proof.
  intros Hd. destruct c; simpl.
  - rewrite process_audio_decided by exact Hd. reflexivity.
  - rewrite force_decision_decided by exact Hd. reflexivity.
Qed.

Lemma after_call_sample_rate (self : AMDSession R) (c : Call) :
  sample_rate (after_call lower self c) = sample_rate self.
Proof.
  destruct (decision_made self) eqn:Hd.
  - rewrite after_call_decided by exact Hd. reflexivity.
  - destruct c; simpl.
    + apply (process_audio_undecided self audio_data Hd).
    + rewrite (force_decision_undecided self Hd). reflexivity.
Qed.

End SessionSteps.

(** ** C5: the forced decision *)

(** C5.  On a session without decision, [force_decision] takes the text the
    recognizer still holds, appends it when there is any, classifies the
    whole transcript with the accumulated duration, and whatever the
    confidence stores the result, marked forced, as the decision and
    returns it.  A call of [process_audio] never returns an UNKNOWN
    decision, and in any session reached from a new one a decision with
    outcome UNKNOWN is a forced one. *)
Theorem forced_decision
    (lower : str -> str) {R : Type} `{Recognizer R}
    (self : AMDSession R) (id : str) (rate : Z) (calls : list Call) :
  (decision_made self = false ->
   let final_text := fst (FinalResult (recognizer self)) in
   let transcript :=
     if truthy final_text
     then accumulated_text self ++ u " " ++ final_text
     else accumulated_text self in
   let analysis :=
     analyze_transcription lower (strip transcript)
                           (total_speech_duration self) in
   let final := with_forced (with_call_id (session_call_id self) analysis) in
   force_decision lower self
   = (mkSession (session_call_id self) (sample_rate self)
                (snd (FinalResult (recognizer self)))
                transcript (total_speech_duration self) true (Some final),
      Some final)
   /\ forced final = Some true
   /\ result final = result analysis
   /\ confidence final = confidence analysis
   /\ forall audio_data r,
        snd (process_audio lower self audio_data) = Return (Some r) ->
        result r <> UNKNOWN /\ forced r = None)
  /\ (forall r,
        final_result (after_calls lower (new_session id rate) calls) = Some r ->
        result r = UNKNOWN -> forced r = Some true).
Proof.
  split.
  - intros Hd. cbv zeta. split; [apply force_decision_undecided, Hd|].
    split; [reflexivity|]. split; [reflexivity|]. split; [reflexivity|].
    intros audio_data r Hr.
    destruct (process_audio_undecided lower self audio_data Hd) as (_ & _ & Hm).
    rewrite Hr in Hm. destruct Hm as ((Hf & _ & Hn) & _). auto.
  - intros r Hfinal Hu.
    pose proof (after_calls_well_formed lower calls _
                  (new_session_well_formed id rate)) as Hwf.
    unfold well_formed in Hwf. rewrite Hfinal in Hwf.
    destruct Hwf as [_ [Hf | (_ & _ & Hn)]]; [exact Hf | contradiction].
Qed.

(** ** C7: the fast exit on a partial utterance *)

(** C7.  On a session without decision, when the recognizer reports a
    partial utterance, the classifier is run on the partial text alone with
    duration 0.  If its result is MACHINE with confidence at least 0.85 the
    session stores it, marked partial, as its decision and returns it;
    otherwise no decision is returned and no attribute of the session
    changes but the recognizer. *)
Theorem partial_fast_exit
    (lower : str -> str) {R : Type} `{Recognizer R}
    (self : AMDSession R) (audio_data : bytes)
    (rec1 rec2 : R) (partial_text : str) :
  lower [] = [] ->
  decision_made self = false ->
  AcceptWaveform (recognizer self) audio_data = (false, rec1) ->
  PartialResult rec1 = (partial_text, rec2) ->
  let quick := analyze_transcription lower partial_text 0 in
  let final := with_partial (with_call_id (session_call_id self) quick) in
  (result quick = MACHINE /\ (0.85 <= confidence quick)%Q ->
   process_audio lower self audio_data
   = (mkSession (session_call_id self) (sample_rate self) rec2
                (accumulated_text self) (total_speech_duration self)
                true (Some final),
      Return (Some final))
   /\ partial final = Some true)
  /\ (~ (result quick = MACHINE /\ (0.85 <= confidence quick)%Q) ->
      process_audio lower self audio_data
      = (mkSession (session_call_id self) (sample_rate self) rec2
                   (accumulated_text self) (total_speech_duration self)
                   false (final_result self),
         Return None)).
Proof.
  intros Hlower Hd Ha Hp quick final.
  assert (Hempty : partial_text = [] -> result quick <> MACHINE).
  { intros ->. unfold quick, analyze_transcription. rewrite Hlower.
    simpl. discriminate. }
  unfold process_audio. rewrite Hd, Ha, Hp. fold quick. split.
  - intros [Hm Hc]. destruct (truthy partial_text) eqn:Et.
    + rewrite Hm. apply Qle_bool_iff in Hc. rewrite Hc.
      split; reflexivity.
    + apply truthy_false in Et. apply Hempty in Et. contradiction.
  - intros Hn.
    assert (Hsame : set_recognizer self rec2
                    = mkSession (session_call_id self) (sample_rate self) rec2
                        (accumulated_text self) (total_speech_duration self)
                        false (final_result self))
      by (unfold set_recognizer; rewrite Hd; reflexivity).
    destruct (truthy partial_text); [|rewrite Hsame; reflexivity].
    destruct (Outcome_eqb (result quick) MACHINE) eqn:Em;
      [|cbn [andb]; rewrite Hsame; reflexivity].
    destruct (Qle_bool 0.85 (confidence quick)) eqn:Ec;
      [|cbn [andb]; rewrite Hsame; reflexivity].
    exfalso. apply Hn. split.
    + destruct (result quick); try discriminate. reflexivity.
    + apply Qle_bool_iff, Ec.
Qed.

(** ** C8: a decided session does not change *)

(** C8.  On a session whose decision is made, [process_audio] with any
    audio and [force_decision] return the stored result and leave the
    session, every attribute of it, as it was. *)
Theorem decided_is_final
    (lower : str -> str) {R : Type} `{Recognizer R} (self : AMDSession R) :
  decision_made self = true ->
  (forall audio_data,
     process_audio lower self audio_data = (self, Return (final_result self)))
  /\ force_decision lower self = (self, final_result self).
Proof.
  intros Hd. split.
  - intros audio_data. apply process_audio_decided, Hd.
  - apply force_decision_decided, Hd.
Qed.

(** ** C9: what never goes back *)

Section Monotone.

Variable lower : str -> str.
Context {R : Type} `{Recognizer R}.

Lemma chunk_duration_nonneg (n : nat) (rate : Z) :
  (0 <= rate)%Z -> (0 <= inject_Z (Z.of_nat n) / inject_Z (rate * 2))%Q.
Proof.
  intros Hr. unfold Qdiv. apply Qmult_le_0_compat.
  - change 0%Q with (inject_Z 0). rewrite <- Zle_Qle. lia.
  - apply Qinv_le_0_compat.
    change 0%Q with (inject_Z 0). rewrite <- Zle_Qle. lia.
Qed.

Lemma after_call_duration (self : AMDSession R) (c : Call) :
  (0 <= sample_rate self)%Z ->
  (total_speech_duration self
   <= total_speech_duration (after_call lower self c))%Q.
Proof.
  intros Hr. destruct c as [audio_data|]; simpl.
  - unfold process_audio. break_step; cbn; try apply Qle_refl.
    all: pose proof (chunk_duration_nonneg (length audio_data) _ Hr) as Hc;
      unfold len; lra.
  - unfold force_decision. break_step; cbn; apply Qle_refl.
Qed.

Lemma after_call_decision (self : AMDSession R) (c : Call) :
  decision_made self = true -> decision_made (after_call lower self c) = true.
Proof. intros Hd. rewrite after_call_decided; assumption. Qed.

End Monotone.

(** C9, as the code has it.  Across any sequence of [process_audio] and
    [force_decision] calls a decision once made stays made, and for a
    session whose sample rate is not negative the accumulated speech
    duration never decreases. *)
Theorem session_monotone
    (lower : str -> str) {R : Type} `{Recognizer R}
    (self : AMDSession R) (calls : list Call) :
  (decision_made self = true ->
   decision_made (after_calls lower self calls) = true)
  /\ ((0 <= sample_rate self)%Z ->
      (total_speech_duration self
       <= total_speech_duration (after_calls lower self calls))%Q).
Proof.
  unfold after_calls. revert self.
  induction calls as [|c calls IH]; intros self; simpl.
  - split; [auto | intros _; apply Qle_refl].
  - destruct (IH (after_call lower self c)) as [IHd IHt]. split.
    + intros Hd. apply IHd, after_call_decision, Hd.
    + intros Hr. eapply Qle_trans; [apply after_call_duration, Hr|].
      apply IHt. rewrite after_call_sample_rate. exact Hr.
Qed.

(** With a negative sample rate a completed utterance lowers the duration. *)
Lemma negative_rate_lowers_duration :
  let engine := scripted [Final (u "hola")] in
  let self := new_session (H := engine) (u "c1") (-8000) in
  let self' :=
    after_calls (H := engine) lower_latin1 self
                [CallProcessAudio [Byte.x00; Byte.x00]] in
  (total_speech_duration self' < total_speech_duration self)%Q.
Proof. reflexivity. Qed.

Lemma session_monotone_witness :
  let engine := scripted [Final (u "buzon"); Final (u "de voz")] in
  let self := new_session (H := engine) (u "c1") 8000 in
  let calls := [CallProcessAudio [Byte.x00; Byte.x00]; CallForceDecision] in
  (0 <= sample_rate self)%Z
  /\ decision_made (after_calls (H := engine) lower_latin1 self
                                [CallProcessAudio [Byte.x00; Byte.x00]]) = true
  /\ decision_made
       (after_calls (H := engine) lower_latin1
          (after_calls (H := engine) lower_latin1 self
                       [CallProcessAudio [Byte.x00; Byte.x00]])
          calls) = true
  /\ (total_speech_duration self
      <= total_speech_duration
           (after_calls (H := engine) lower_latin1 self calls))%Q.
Proof.
  cbv zeta.
  assert (Hr : (0 <= sample_rate
                  (new_session
                     (H := scripted [Final (u "buzon"); Final (u "de voz")])
                     (u "c1") 8000))%Z) by (simpl; lia).
  assert (Hd : decision_made
                 (after_calls
                    (H := scripted [Final (u "buzon"); Final (u "de voz")])
                    lower_latin1
                    (new_session
                       (H := scripted [Final (u "buzon"); Final (u "de voz")])
                       (u "c1") 8000)
                    [CallProcessAudio [Byte.x00; Byte.x00]]) = true)
    by reflexivity.
  split; [exact Hr|]. split; [exact Hd|]. split.
  - exact (proj1 (session_monotone lower_latin1 _ _) Hd).
  - exact (proj2 (session_monotone lower_latin1 _ _) Hr).
Defined.

(** ** C10: one keyword is not enough for the fast exit *)

Lemma machine_at_zero_duration lower (p : str) :
  result (analyze_transcription lower p 0) = MACHINE ->
  confidence (analyze_transcription lower p 0)
  = py_min 0.95 (0.7 + inject_Z (len (keywords_found (strip (lower p)))) * 0.1).
Proof.
  unfold analyze_transcription.
  change (Qlt_bool AMD_MIN_SPEECH_FOR_MACHINE 0) with false.
  break_step; simpl; try discriminate. reflexivity.
Qed.

Lemma single_keyword_confidence {A} (found : list A) :
  (length found <= 1)%nat ->
  ~ (0.85 <= py_min 0.95 (0.7 + inject_Z (len found) * 0.1))%Q.
Proof.
  intros Hn Hc. assert (Hq : (inject_Z (len found) <= 1)%Q).
  { change 1%Q with (inject_Z 1). rewrite <- Zle_Qle. unfold len. lia. }
  unfold py_min in Hc. destruct (Qlt_bool _ _) eqn:E.
  - lra.
  - apply Qlt_bool_false in E. lra.
Qed.

Lemma Outcome_eqb_eq (a b : Outcome) : Outcome_eqb a b = true -> a = b.
Proof. destruct a, b; simpl; congruence. Qed.

Lemma fast_exit_needs_two
    (lower : str -> str) {R : Type} `{Recognizer R}
    (self : AMDSession R) (audio_data : bytes)
    (rec1 rec2 : R) (partial_text : str) :
  decision_made self = false ->
  AcceptWaveform (recognizer self) audio_data = (false, rec1) ->
  PartialResult rec1 = (partial_text, rec2) ->
  (match_count lower partial_text <= 1)%nat ->
  process_audio lower self audio_data = (set_recognizer self rec2, Return None).
Proof.
  intros Hd Ha Hp Hn. unfold process_audio. rewrite Hd, Ha, Hp.
  destruct (truthy partial_text); [|reflexivity].
  destruct (Outcome_eqb _ MACHINE) eqn:Em; [|reflexivity].
  destruct (Qle_bool 0.85 _) eqn:Ec; [|reflexivity].
  exfalso. apply Outcome_eqb_eq in Em. apply Qle_bool_iff in Ec.
  rewrite (machine_at_zero_duration lower partial_text Em) in Ec.
  exact (single_keyword_confidence _ Hn Ec).
Qed.

(** C10.  On a session without decision, a frame answered by a partial
    utterance in which exactly one voicemail phrase occurs returns no
    decision and leaves the session without one; a frame answered by a
    partial utterance decides only when at least two phrases occur in it;
    and a session fed frames that are all answered by partial utterances
    with exactly one phrase, such as "buzon", stays without decision. *)
Theorem one_keyword_partial_never_decides
    (lower : str -> str) {R : Type} `{Recognizer R}
    (self : AMDSession R) (audio_data : bytes)
    (rec1 rec2 : R) (partial_text : str) (frames : list bytes) :
  decision_made self = false ->
  (AcceptWaveform (recognizer self) audio_data = (false, rec1) ->
   PartialResult rec1 = (partial_text, rec2) ->
   (match_count lower partial_text = 1%nat ->
    process_audio lower self audio_data
    = (set_recognizer self rec2, Return None))
   /\ (decision_made (fst (process_audio lower self audio_data)) = true ->
       (2 <= match_count lower partial_text)%nat))
  /\ (only_partials (fun p => match_count lower p = 1%nat)
                    (recognizer self) frames ->
      decision_made
        (after_calls lower self (List.map CallProcessAudio frames)) = false).
Proof.
  intros Hd. split.
  - intros Ha Hp. split.
    + intros Hn. apply (fast_exit_needs_two lower self audio_data rec1 rec2
                          partial_text Hd Ha Hp). lia.
    + intros Hdec.
      destruct (le_lt_dec (match_count lower partial_text) 1) as [Hle|Hlt];
        [|lia].
      rewrite (fast_exit_needs_two lower self audio_data rec1 rec2
                 partial_text Hd Ha Hp Hle) in Hdec.
      simpl in Hdec. congruence.
  - intros Hp. remember (recognizer self) as rec eqn:Hrec.
    revert self Hd Hrec. induction Hp as [rec|rec rec1' rec2' a p rest Ha Hpr Hn _ IH];
      intros self Hd Hrec; simpl; [exact Hd|].
    subst rec. unfold after_calls in *. simpl.
    rewrite (fast_exit_needs_two lower self a rec1' rec2' p Hd Ha Hpr)
      by (rewrite Hn; lia).
    apply IH; [exact Hd | reflexivity].
Qed.

Lemma one_keyword_partial_witness :
  let engine := scripted [] in
  let self :=
    mkSession (u "c1") 8000
              [Partial (u "buzon"); Partial (u "buzon"); Partial (u "buzon")]
              [] 0.0 false None in
  let frame := [Byte.x00; Byte.x00] in
  match_count lower_latin1 (u "buzon") = 1%nat
  /\ process_audio (H := engine) lower_latin1 self frame
     = (set_recognizer self [Partial (u "buzon"); Partial (u "buzon")],
        Return None)
  /\ decision_made
       (after_calls (H := engine) lower_latin1 self
          (List.map CallProcessAudio [frame; frame; frame])) = false.
Proof.
  cbv zeta.
  pose proof (one_keyword_partial_never_decides (H := scripted [])
    lower_latin1
    (mkSession (u "c1") 8000
       [Partial (u "buzon"); Partial (u "buzon"); Partial (u "buzon")]
       [] 0.0 false None)
    [Byte.x00; Byte.x00]
    [Partial (u "buzon"); Partial (u "buzon"); Partial (u "buzon")]
    [Partial (u "buzon"); Partial (u "buzon")]
    (u "buzon")
    [[Byte.x00; Byte.x00]; [Byte.x00; Byte.x00]; [Byte.x00; Byte.x00]]
    eq_refl) as [Hone Hall].
  assert (Hn : match_count lower_latin1 (u "buzon") = 1%nat) by reflexivity.
  split; [exact Hn|]. split.
  - exact (proj1 (Hone eq_refl eq_refl) Hn).
  - apply Hall. simpl.
    repeat (eapply (only_partials_cons (H := scripted []));
            [reflexivity | reflexivity | exact Hn |]).
    apply only_partials_nil.
Defined.

(** ** C1: a second session for the same call *)

(** C1, as the code has it.  Creating a session never fails, whether or not
    the call identifier is already registered: a new session object is made
    and the registry entry of the identifier is bound to it.  Every session
    object that existed before, the one registered under this identifier
    included, keeps its state, and the entries of other identifiers are
    unchanged. *)
Theorem create_session_rebinds
    {R : Type} `{Recognizer R}
    (w : World R) (call_id : str) (rate : Z) :
  let ref := fst (create_session w call_id rate) in
  let w' := snd (create_session w call_id rate) in
  heap w !! ref = None
  /\ heap w' !! ref = Some (new_session call_id rate)
  /\ active_sessions w' !! call_id = Some ref
  /\ (forall old session, heap w !! old = Some session ->
                          heap w' !! old = Some session)
  /\ (forall other, other <> call_id ->
                    active_sessions w' !! other = active_sessions w !! other).
Proof.
  cbn. assert (Hfresh : heap w !! fresh (dom (heap w)) = None).
  { apply not_elem_of_dom, is_fresh. }
  split; [exact Hfresh|]. split; [apply lookup_insert_eq|].
  split; [apply lookup_insert_eq|]. split.
  - intros old session Hold. rewrite lookup_insert_ne; [exact Hold|].
    intros Heq. rewrite Heq in Hfresh. congruence.
  - intros other Hne. apply lookup_insert_ne. congruence.
Qed.

(** A registry that holds a session for "c1", which has heard "buzon de
    voz"; creating a session for "c1" again succeeds and the entry of "c1"
    no longer refers to that session. *)
Lemma duplicate_call_id_replaces_entry :
  let engine := scripted [] in
  let existing :=
    mkSession (u "c1") 8000 ([] : list Heard) (u " buzon") 0.5 false None in
  let w := mkWorld (<[0%nat := existing]> ∅) (<[u "c1" := 0%nat]> ∅) in
  let ref := fst (create_session (H := engine) w (u "c1") 8000) in
  let w' := snd (create_session (H := engine) w (u "c1") 8000) in
  active_sessions w !! u "c1" = Some 0%nat
  /\ active_sessions w' !! u "c1" = Some ref
  /\ ref <> 0%nat
  /\ heap w' !! ref <> Some existing.
Proof.
  cbv zeta. unfold create_session. cbn [fst snd heap active_sessions].
  split; [apply lookup_insert_eq|]. split; [apply lookup_insert_eq|]. split.
  - intros Heq.
    pose proof (is_fresh (dom (<[0%nat :=
                  mkSession (u "c1") 8000 ([] : list Heard)
                            (u " buzon") 0.5 false None]>
                  (∅ : gmap nat (AMDSession (list Heard)))))) as Hfresh.
    rewrite Heq in Hfresh. apply Hfresh.
    apply elem_of_dom. rewrite lookup_insert_eq. eexists. reflexivity.
  - rewrite lookup_insert_eq. intros Heq. injection Heq as Heq. discriminate.
Qed.

Lemma create_session_rebinds_witness :
  let engine := scripted [] in
  let existing :=
    mkSession (u "c1") 8000 ([] : list Heard) (u " buzon") 0.5 false None in
  let w := mkWorld (<[0%nat := existing]> ∅) (<[u "c1" := 0%nat]> ∅) in
  let w' := snd (create_session (H := engine) w (u "c1") 8000) in
  heap w !! 0%nat = Some existing
  /\ heap w' !! 0%nat = Some existing
  /\ u "c2" <> u "c1"
  /\ active_sessions w' !! u "c2" = active_sessions w !! u "c2".
Proof.
  cbv zeta.
  pose proof (create_session_rebinds (H := scripted [])
    (mkWorld (<[0%nat := mkSession (u "c1") 8000 ([] : list Heard)
                           (u " buzon") 0.5 false None]> ∅)
             (<[u "c1" := 0%nat]> ∅))
    (u "c1") 8000) as (_ & _ & _ & Hkeep & Hother).
  assert (Hold : heap (mkWorld
                   (<[0%nat := mkSession (u "c1") 8000 ([] : list Heard)
                                 (u " buzon") 0.5 false None]> ∅)
                   (<[u "c1" := 0%nat]> ∅)) !! 0%nat
                 = Some (mkSession (u "c1") 8000 ([] : list Heard)
                           (u " buzon") 0.5 false None)).
  { apply lookup_insert_eq. }
  assert (Hne : u "c2" <> u "c1") by discriminate.
  split; [exact Hold|]. split; [exact (Hkeep _ _ Hold)|].
  split; [exact Hne|]. exact (Hother _ Hne).
Defined.

(** ** C6: one decision per session *)

Section Controller.

Variable lower : str -> str.
Context {R : Type} `{Recognizer R}.

Lemma stream_loop_outcome (turns : list Turn) (session : AMDSession R) :
  decision_made session = false ->
  sample_rate session <> 0%Z ->
  Forall connected turns ->
  loop_outcome turns (stream_loop lower session turns).
Proof.
  revert session.
  induction turns as [|turn turns IH]; intros session Hd Hrate Hconn.
  - left. repeat split; auto.
  - inversion Hconn as [|? ? Hturn Hrest]; subst. cbn [stream_loop].
    destruct (Qlt_bool AMD_DECISION_TIMEOUT_SECONDS (elapsed turn)) eqn:Et.
    + rewrite (force_decision_undecided lower session Hd).
      right. split; [reflexivity|].
      eexists [ForceDecision], _. split; [reflexivity|].
      split; [reflexivity|]. split; [reflexivity|]. left. split; reflexivity.
    + destruct (received turn) as [audio_data| |] eqn:Er.
      * pose proof (process_audio_undecided lower session audio_data Hd)
          as (Hsr & _ & Hm).
        destruct (process_audio lower session audio_data)
          as [session' [[r|]|e]] eqn:Ep; cbn [fst snd] in Hsr, Hm.
        -- destruct Hm as ((Hf & _) & _ & Hfinal).
           right. split; [reflexivity|].
           exists [ProcessAudio], r. split; [reflexivity|].
           split; [reflexivity|]. split; [exact Hfinal|].
           right. split; [reflexivity | exact Hf].
        -- destruct Hm as (Hd' & _).
           assert (Hrate' : sample_rate session' <> 0%Z) by congruence.
           specialize (IH session' Hd' Hrate' Hrest).
           destruct (stream_loop lower session' turns)
             as [[session'' events] status].
           destruct IH as [(Hs & Hsent & Hforced & Hall & Hd'')
                          |(Hs & before & r & He & Hsent & Hfinal & Hcount)].
           ++ left. repeat split; auto.
              constructor; [|exact Hall].
              unfold past_deadline. intros Hlt.
              apply Qlt_bool_iff in Hlt. congruence.
           ++ right. split; [exact Hs|].
              exists (ProcessAudio :: before), r. rewrite He.
              repeat split; auto.
        -- destruct Hm as (Hz & _). contradiction.
      * specialize (IH session Hd Hrate Hrest).
        destruct (stream_loop lower session turns)
          as [[session'' events] status].
        destruct IH as [(Hs & Hsent & Hforced & Hall & Hd'')
                       |(Hs & before & r & He & Hsent & Hfinal & Hcount)].
        -- left. repeat split; auto.
           constructor; [|exact Hall].
           unfold past_deadline. intros Hlt.
           apply Qlt_bool_iff in Hlt. congruence.
        -- right. split; [exact Hs|].
           exists before, r. repeat split; auto.
      * exfalso. apply Hturn. exact Er.
Qed.

Lemma sent_app (before after : list Event) :
  sent (before ++ after) = sent before ++ sent after.
Proof.
  induction before as [|e before IH]; [reflexivity|].
  destruct e; simpl; rewrite IH; reflexivity.
Qed.

Lemma times_forced_app (before after : list Event) :
  times_forced (before ++ after)
  = (times_forced before + times_forced after)%nat.
Proof.
  induction before as [|e before IH]; [reflexivity|].
  destruct e; simpl; rewrite IH; reflexivity.
Qed.

End Controller.

Lemma discard_session_lookup (call_id : str) (ref : nat)
    (registry : gmap (list N) nat) :
  discard_session call_id (<[call_id := ref]> registry) !! call_id = None.
Proof.
  unfold discard_session. rewrite lookup_insert_eq. apply lookup_delete_eq.
Qed.

(** The single-request handler returns one decision as well, forced when
    the audio alone did not decide, provided the sample rate is not zero. *)
Lemma analyze_audio_one_decision
    (lower : str -> str) {R : Type} `{Recognizer R}
    (call_id : str) (audio_data : bytes) (rate : Z) :
  rate <> 0%Z ->
  exists r, analyze_audio lower call_id audio_data rate = Return (Some r).
Proof.
  intros Hrate. unfold analyze_audio.
  pose proof (process_audio_undecided lower (new_session call_id rate)
                audio_data eq_refl) as (_ & _ & Hm).
  destruct (process_audio lower (new_session call_id rate) audio_data)
    as [session [[r|]|e]]; cbn [fst snd] in Hm.
  - exists r. reflexivity.
  - destruct Hm as [Hd _].
    rewrite (force_decision_undecided lower session Hd). eexists. reflexivity.
  - destruct Hm as [Hz _]. contradiction.
Qed.

(** On that call the loop forces the decision, and the decision is UNKNOWN. *)
Lemma silent_call_is_forced_unknown :
  exists session r,
    stream_loop (H := scripted []) lower_latin1
                (new_session (H := scripted []) (u "c1") 8000) silence
    = (session, [ForceDecision; Send (Decision r)], Closed)
    /\ result r = UNKNOWN /\ confidence r = 0.0%Q /\ forced r = Some true.
Proof. eexists _, _. split; [reflexivity|]. repeat split. Qed.

(** ** The theorems at work on concrete sessions *)

Lemma forced_decision_witness :
  let engine := scripted [] in
  let self := new_session (H := engine) (u "c1") 8000 in
  decision_made self = false
  /\ (exists final,
        force_decision (H := engine) lower_latin1 self
        = (decide_with self final, Some final)
        /\ forced final = Some true /\ result final = UNKNOWN)
  /\ exists r,
       final_result (after_calls (H := engine) lower_latin1 self
                                 [CallForceDecision]) = Some r
       /\ result r = UNKNOWN /\ forced r = Some true.
Proof.
  cbv zeta.
  pose proof (forced_decision (H := scripted []) lower_latin1
                (new_session (H := scripted []) (u "c1") 8000)
                (u "c1") 8000 [CallForceDecision]) as [Hforce Hreach].
  split; [reflexivity|]. split.
  - destruct (Hforce eq_refl) as (Hrun & Hf & _).
    eexists. split; [exact Hrun|]. split; [exact Hf | reflexivity].
  - eexists. split; [reflexivity|]. split; [reflexivity|].
    exact (Hreach _ eq_refl eq_refl).
Defined.

Lemma partial_fast_exit_witness :
  let engine := scripted [] in
  let session heard :=
    mkSession (u "c1") 8000 [Partial heard] (u " hola") 0.5 false None in
  let frame := [Byte.x00; Byte.x00] in
  lower_latin1 [] = []
  /\ (exists final,
        process_audio (H := engine) lower_latin1
                      (session (u "deje su mensaje")) frame
        = (mkSession (u "c1") 8000 [] (u " hola") 0.5 true (Some final),
           Return (Some final))
        /\ partial final = Some true
        /\ transcription final = u "deje su mensaje")
  /\ process_audio (H := engine) lower_latin1 (session (u "buzon")) frame
     = (mkSession (u "c1") 8000 [] (u " hola") 0.5 false None, Return None).
Proof.
  cbv zeta. split; [reflexivity|]. split.
  - destruct (partial_fast_exit (H := scripted []) lower_latin1
                (mkSession (u "c1") 8000 [Partial (u "deje su mensaje")]
                           (u " hola") 0.5 false None)
                [Byte.x00; Byte.x00]
                [Partial (u "deje su mensaje")] [] (u "deje su mensaje")
                eq_refl eq_refl eq_refl eq_refl) as [Hyes _].
    assert (Hq : result (analyze_transcription lower_latin1
                           (u "deje su mensaje") 0) = MACHINE
                 /\ (0.85 <= confidence (analyze_transcription lower_latin1
                                           (u "deje su mensaje") 0))%Q).
    { split; [reflexivity|]. apply Qle_bool_iff. reflexivity. }
    destruct (Hyes Hq) as [Hrun Hp].
    eexists. split; [exact Hrun|]. split; [exact Hp | reflexivity].
  - destruct (partial_fast_exit (H := scripted []) lower_latin1
                (mkSession (u "c1") 8000 [Partial (u "buzon")]
                           (u " hola") 0.5 false None)
                [Byte.x00; Byte.x00]
                [Partial (u "buzon")] [] (u "buzon")
                eq_refl eq_refl eq_refl eq_refl) as [_ Hno].
    apply Hno. intros [_ Hc]. apply Qle_bool_iff in Hc. discriminate.
Defined.

Lemma decided_is_final_witness :
  let engine := scripted [Final (u "el numero que usted marco")] in
  let self :=
    after_calls (H := engine) lower_latin1
                (new_session (H := engine) (u "c1") 8000)
                [CallProcessAudio [Byte.x00; Byte.x00]] in
  decision_made self = true
  /\ process_audio (H := engine) lower_latin1 self [Byte.x01]
     = (self, Return (final_result self))
  /\ force_decision (H := engine) lower_latin1 self
     = (self, final_result self).
Proof.
  cbv zeta.
  assert (Hd : decision_made
                 (after_calls
                    (H := scripted [Final (u "el numero que usted marco")])
                    lower_latin1
                    (new_session
                       (H := scripted [Final (u "el numero que usted marco")])
                       (u "c1") 8000)
                    [CallProcessAudio [Byte.x00; Byte.x00]]) = true)
    by reflexivity.
  split; [exact Hd|].
  destruct (decided_is_final
              (H := scripted [Final (u "el numero que usted marco")])
              lower_latin1 _ Hd) as [Hp Hf].
  split; [apply Hp | exact Hf].
Defined.

(** ** C3 on the text as given *)

Lemma lstrip_keeps (a x : str) (c : N) :
  isspace c = false -> exists a', lstrip (a ++ c :: x) = a' ++ c :: x.
Proof.
  intros Hc. induction a as [|d a IH]; simpl.
  - rewrite Hc. exists []. reflexivity.
  - destruct (isspace d).
    + exact IH.
    + exists (d :: a). reflexivity.
Qed.

Lemma strip_keeps (k s : str) :
  no_space_at_ends k = true -> occurs_in k s -> occurs_in k (strip s).
Proof.
  unfold no_space_at_ends. intros Hk (a & b & ->).
  destruct k as [|first k']; [discriminate|].
  destruct (rev (first :: k')) as [|last rk] eqn:Er; [discriminate|].
  apply andb_true_iff in Hk as [Hf Hl].
  apply negb_true_iff in Hf, Hl.
  unfold strip, rstrip.
  destruct (lstrip_keeps a (k' ++ b) first Hf) as [a' Ha].
  change (a ++ (first :: k') ++ b) with (a ++ first :: k' ++ b).
  rewrite Ha.
  change (a' ++ first :: k' ++ b) with (a' ++ (first :: k') ++ b).
  rewrite !rev_app_distr, Er, <- app_assoc. cbn [app].
  destruct (lstrip_keeps (rev b) (rk ++ rev a') last Hl) as [b' Hb].
  rewrite Hb. rewrite rev_app_distr.
  change (last :: rk ++ rev a') with ((last :: rk) ++ rev a').
  rewrite rev_app_distr, rev_involutive, <- Er, rev_involutive.
  exists a', (rev b'). rewrite <- app_assoc. reflexivity.
Qed.

Lemma VOICEMAIL_KEYWORDS_ends (k : str) :
  In k VOICEMAIL_KEYWORDS -> no_space_at_ends k = true.
Proof.
  revert k. apply (proj1 (List.Forall_forall _ VOICEMAIL_KEYWORDS)).
  repeat constructor.
Qed.

(** A voicemail phrase that occurs in the text as given makes the result
    MACHINE. *)
Lemma keyword_rule_on_given_text
    (lower : str -> str) (text : str) (speech_duration : Q) :
  keeps_keywords lower ->
  (exists k, In k VOICEMAIL_KEYWORDS /\ occurs_in k text) ->
  result (analyze_transcription lower text speech_duration) = MACHINE.
Proof.
  intros Hlower (k & Hk & Hocc).
  assert (Hin : occurs_in k (strip (lower text))).
  { apply strip_keeps; [apply VOICEMAIL_KEYWORDS_ends, Hk|].
    apply Hlower; assumption. }
  rewrite analyze_keyword_case; [reflexivity | |].
  - eapply occurs_in_nonempty; [apply VOICEMAIL_KEYWORDS_nonempty, Hk | exact Hin].
  - intros Hnil. assert (Hf : In k (keywords_found (strip (lower text)))).
    { apply keywords_found_In. split; [exact Hk | apply str_in_spec, Hin]. }
    rewrite Hnil in Hf. exact Hf.
Qed.

Lemma lower_latin1_keeps_keywords : keeps_keywords lower_latin1.
Proof.
  intros k text Hk (a & b & ->). unfold lower_latin1.
  rewrite !List.map_app.
  assert (Hfix : List.map to_lower k = k).
  { revert k Hk.
    apply (proj1 (List.Forall_forall
                    (fun k => List.map to_lower k = k) VOICEMAIL_KEYWORDS)).
    repeat constructor. }
  rewrite Hfix. exists (List.map to_lower a), (List.map to_lower b).
  reflexivity.
Qed.

(** ** Binary64 and the rationals

    The session compares a confidence with 0.70 and with 0.85 and does
    nothing else with it.  On every confidence the classifier can produce,
    the constant ones and that of the keyword rule for each possible number
    of keywords, the two comparisons come out in binary64 as they do in the
    rationals. *)

Lemma keywords_found_at_most (t : str) :
  (length (keywords_found t) <= 35)%nat.
Proof.
  unfold keywords_found.
  exact (List.filter_length_le _ VOICEMAIL_KEYWORDS).
Qed.

Lemma binary64_agrees_on_keyword_rule (n : nat) :
  (n <= 35)%nat ->
  same_comparisons (keyword_confidence_float n) (keyword_confidence n) = true.
Proof.
  intros Hn.
  assert (Hall : forallb (fun n => same_comparisons (keyword_confidence_float n)
                                                   (keyword_confidence n))
                         (seq 0 36) = true)
    by (vm_compute; reflexivity).
  rewrite forallb_forall in Hall. apply Hall. apply in_seq. lia.
Qed.

Lemma binary64_agrees_on_constants :
  forallb (fun c => same_comparisons (fst c) (snd c)) constant_confidences
  = true.
Proof. vm_compute. reflexivity. Qed.

Lemma binary64_agrees_on_keyword_rule_witness :
  (1 <= 35)%nat
  /\ same_comparisons (keyword_confidence_float 1) (keyword_confidence 1) = true.
Proof.
  assert (Hn : (1 <= 35)%nat) by lia.
  split; [exact Hn | exact (binary64_agrees_on_keyword_rule 1 Hn)].
Defined.

(** * Further properties of the code *)

(** ** The rules of the classifier without keyword *)

Lemma split_nil_length (t : str) : t = [] -> length (split t) = 0%nat.
Proof. intros ->. reflexivity. Qed.

(** [analyze_transcription] on a text in which no keyword occurs. *)
Lemma analyze_no_keyword_case lower text d :
  let t := strip (lower text) in
  t <> [] -> keywords_found t = [] ->
  analyze_transcription lower text d
  = if Qlt_bool AMD_MIN_SPEECH_FOR_MACHINE d && (8 <? len (split t))%Z
    then mkAnalysis MACHINE 0.75 (LongSpeech d (length (split t))) t
                    None None None None
    else if (len (split t) <=? 3)%Z
            && existsb (fun greeting => str_in greeting t) human_greetings
    then mkAnalysis HUMAN 0.85 (HumanGreeting t) t None None None None
    else if (len (split t) <=? 4)%Z
    then mkAnalysis HUMAN 0.70 ShortAnswer t None None None None
    else mkAnalysis UNKNOWN 0.5 Undetermined t None None None None.
Proof.
  intros t Ht Hk. unfold analyze_transcription. fold t.
  destruct t as [|c t'] eqn:Et; [contradiction|]. cbn [truthy negb].
  rewrite Hk. cbn [len length Z.of_nat Z.leb Z.compare Z.eqb].
  destruct (Qlt_bool _ _); cbn [andb];
    destruct (8 <? len (split (c :: t')))%Z; try reflexivity;
    destruct (_ && existsb _ _); try reflexivity;
    destruct (len (split (c :: t')) <=? 4)%Z; reflexivity.
Qed.

(** X1.  Sustained speech: when no voicemail phrase occurs in the normalized
    text, the duration exceeds 2.5 s and the text has more than 8 words, the
    result is MACHINE with confidence 0.75 and without [keywords]; and a
    MACHINE result without [keywords] arises in no other way. *)
Theorem sustained_speech_rule
    (lower : str -> str) (text : str) (speech_duration : Q) :
  let t := strip (lower text) in
  let a := analyze_transcription lower text speech_duration in
  (keywords_found t = []
   /\ (AMD_MIN_SPEECH_FOR_MACHINE < speech_duration)%Q
   /\ (8 < length (split t))%nat
   -> result a = MACHINE /\ confidence a = 0.75%Q /\ keywords a = None
      /\ reason a = LongSpeech speech_duration (length (split t)))
  /\ (result a = MACHINE /\ keywords a = None
      -> keywords_found t = []
         /\ (AMD_MIN_SPEECH_FOR_MACHINE < speech_duration)%Q
         /\ (8 < length (split t))%nat).
Proof.
  intros t a. split.
  - intros (Hk & Hd & Hw).
    assert (Ht : t <> []).
    { intros Hnil. apply split_nil_length in Hnil. lia. }
    unfold a. rewrite (analyze_no_keyword_case lower text speech_duration Ht Hk).
    fold t. apply Qlt_bool_iff in Hd. rewrite Hd.
    replace (8 <? len (split t))%Z with true
      by (symmetry; apply Z.ltb_lt; unfold len; lia).
    repeat split.
  - intros [Hr Hkw]. destruct t as [|c t'] eqn:Et.
    { unfold a, analyze_transcription in Hr. fold t in Hr. rewrite Et in Hr.
      discriminate. }
    assert (Ht : t <> []) by (rewrite Et; discriminate). rewrite <- Et in *.
    destruct (keywords_found t) as [|k ks] eqn:Ek.
    + unfold a in Hr.
      rewrite (analyze_no_keyword_case lower text speech_duration Ht Ek) in Hr.
      fold t in Hr.
      destruct (Qlt_bool AMD_MIN_SPEECH_FOR_MACHINE speech_duration) eqn:Ed;
        cbn [andb] in Hr.
      * destruct (8 <? len (split t))%Z eqn:Ew.
        -- split; [reflexivity|]. split; [apply Qlt_bool_iff, Ed|].
           apply Z.ltb_lt in Ew. unfold len in Ew. lia.
        -- destruct (_ && existsb _ _); [discriminate|].
           destruct (len (split t) <=? 4)%Z; discriminate.
      * destruct (_ && existsb _ _); [discriminate|].
        destruct (len (split t) <=? 4)%Z; discriminate.
    + exfalso. unfold a in Hkw.
      rewrite (analyze_keyword_case lower text speech_duration Ht) in Hkw
        by (fold t; rewrite Ek; discriminate).
      discriminate.
Qed.

(** X2.  Short answer: a non-empty normalized text of at most 4 words,
    without voicemail phrase, on which the greeting rule does not fire
    (it has 4 words, or no greeting occurs in it), gives HUMAN with
    confidence 0.70, whatever the duration. *)
Theorem short_answer_rule
    (lower : str -> str) (text : str) (speech_duration : Q) :
  let t := strip (lower text) in
  let a := analyze_transcription lower text speech_duration in
  t <> [] ->
  keywords_found t = [] ->
  (length (split t) <= 4)%nat ->
  (length (split t) = 4%nat
   \/ ~ exists g, In g human_greetings /\ occurs_in g t) ->
  result a = HUMAN /\ confidence a = 0.70%Q /\ reason a = ShortAnswer.
Proof.
  intros t a Ht Hk Hw Hg. unfold a.
  rewrite (analyze_no_keyword_case lower text speech_duration Ht Hk). fold t.
  replace (8 <? len (split t))%Z with false
    by (symmetry; apply Z.ltb_ge; unfold len; lia).
  rewrite andb_false_r.
  replace (len (split t) <=? 4)%Z with true
    by (symmetry; apply Z.leb_le; unfold len; lia).
  destruct ((len (split t) <=? 3)%Z
            && existsb (fun greeting => str_in greeting t) human_greetings)
    eqn:E; [|repeat split].
  exfalso. apply andb_true_iff in E as [E3 Eg].
  apply Z.leb_le in E3. unfold len in E3.
  destruct Hg as [H4 | Hno]; [lia|].
  apply Hno. apply greeting_occurs_iff. exact Eg.
Qed.

(** X3.  Default: a normalized text of more than 4 words without voicemail
    phrase gives UNKNOWN with confidence 0.5, unless it has more than 8
    words and the duration exceeds 2.5 s. *)
Theorem default_rule
    (lower : str -> str) (text : str) (speech_duration : Q) :
  let t := strip (lower text) in
  let a := analyze_transcription lower text speech_duration in
  keywords_found t = [] ->
  (4 < length (split t))%nat ->
  (length (split t) <= 8)%nat
  \/ (speech_duration <= AMD_MIN_SPEECH_FOR_MACHINE)%Q ->
  result a = UNKNOWN /\ confidence a = 0.5%Q /\ reason a = Undetermined.
Proof.
  intros t a Hk Hw Hno.
  assert (Ht : t <> []).
  { intros Hnil. apply split_nil_length in Hnil. lia. }
  unfold a. rewrite (analyze_no_keyword_case lower text speech_duration Ht Hk).
  fold t.
  replace (Qlt_bool AMD_MIN_SPEECH_FOR_MACHINE speech_duration
           && (8 <? len (split t))%Z) with false.
  - replace (len (split t) <=? 3)%Z with false
      by (symmetry; apply Z.leb_gt; unfold len; lia).
    replace (len (split t) <=? 4)%Z with false
      by (symmetry; apply Z.leb_gt; unfold len; lia).
    repeat split.
  - symmetry. apply andb_false_iff. destruct Hno as [H8 | Hd].
    + right. apply Z.ltb_ge. unfold len. lia.
    + left. apply Qlt_bool_false. exact Hd.
Qed.

(** X4.  The duration matters to sustained speech only: for a normalized
    text of at most 8 words, or one in which a voicemail phrase occurs, the
    whole result is the same at every duration. *)
Theorem duration_is_irrelevant
    (lower : str -> str) (text : str) (d d' : Q) :
  let t := strip (lower text) in
  (length (split t) <= 8)%nat \/ keywords_found t <> [] ->
  analyze_transcription lower text d = analyze_transcription lower text d'.
Proof.
  intros t Hcase. destruct t as [|c t'] eqn:Et.
  { unfold analyze_transcription. fold t. rewrite Et. reflexivity. }
  assert (Ht : t <> []) by (rewrite Et; discriminate). rewrite <- Et in *.
  destruct (keywords_found t) as [|k ks] eqn:Ek.
  - destruct Hcase as [Hw | Hk]; [|contradiction].
    rewrite !(analyze_no_keyword_case lower text _ Ht Ek). fold t.
    replace (8 <? len (split t))%Z with false
      by (symmetry; apply Z.ltb_ge; unfold len; lia).
    rewrite !andb_false_r. reflexivity.
  - assert (Hf : keywords_found t <> []) by (rewrite Ek; discriminate).
    rewrite !(analyze_keyword_case lower text _ Ht Hf). reflexivity.
Qed.

(** ** The confidence of the keyword rule *)

Lemma keywords_found_nonempty_text (t : str) :
  keywords_found t <> [] -> t <> [].
Proof.
  intros Hf. destruct (keywords_found t) as [|k ks] eqn:Ek; [contradiction|].
  assert (Hin : In k (keywords_found t)) by (rewrite Ek; left; reflexivity).
  apply keywords_found_In in Hin as [Hk Hs].
  apply str_in_spec in Hs.
  exact (occurs_in_nonempty k t (VOICEMAIL_KEYWORDS_nonempty k Hk) Hs).
Qed.

Set Warnings "-inexact-float".

(** X6.  In binary64, as the interpreter computes it, the confidence of the
    keyword rule is at least 0.70 and at most 0.95 for every number of
    phrases the scan can find, and it reaches 0.85 exactly from two phrases
    on. *)
Theorem binary64_keyword_confidence (text_lower : str) :
  let n := length (keywords_found text_lower) in
  (1 <= n)%nat ->
  PrimFloat.leb 0.70%float (keyword_confidence_float n) = true
  /\ PrimFloat.leb 0.85%float (keyword_confidence_float n) = (2 <=? n)%nat
  /\ PrimFloat.leb (keyword_confidence_float n) 0.95%float = true.
Proof.
  intros n Hn. pose proof (keywords_found_at_most text_lower) as Hmax.
  fold n in Hmax. clearbody n.
  assert (Hall : forallb
            (fun n =>
               PrimFloat.leb 0.70%float (keyword_confidence_float n)
               && Bool.eqb (PrimFloat.leb 0.85%float (keyword_confidence_float n))
                           (2 <=? n)%nat
               && PrimFloat.leb (keyword_confidence_float n) 0.95%float)
            (seq 1 35) = true)
    by (vm_compute; reflexivity).
  rewrite forallb_forall in Hall.
  specialize (Hall n ltac:(apply in_seq; lia)).
  apply andb_true_iff in Hall as [Hall H3].
  apply andb_true_iff in Hall as [H1 H2].
  apply Bool.eqb_prop in H2. auto.
Qed.

Set Warnings "inexact-float".

(** ** Nothing said *)

(** X7.  A text that is empty after normalization gives UNKNOWN with
    confidence 0.0 and an empty transcription; every other text gives a
    confidence of at least 0.5 and has the normalized text as its
    transcription. *)
Theorem no_speech_rule
    (lower : str -> str) (text : str) (speech_duration : Q) :
  let t := strip (lower text) in
  let a := analyze_transcription lower text speech_duration in
  (t = [] ->
   a = mkAnalysis UNKNOWN 0.0 NoSpeech [] None None None None)
  /\ (t <> [] -> (0.5 <= confidence a)%Q /\ transcription a = t).
Proof.
  intros t a. split.
  - intros Ht. unfold a, analyze_transcription. fold t. rewrite Ht. reflexivity.
  - intros Ht. destruct (keywords_found t) as [|k ks] eqn:Ek.
    + unfold a.
      rewrite (analyze_no_keyword_case lower text speech_duration Ht Ek).
      fold t.
      destruct (_ && (8 <? _)%Z); [split; [discriminate | reflexivity]|].
      destruct (_ && existsb _ _); [split; [discriminate | reflexivity]|].
      destruct (_ <=? 4)%Z; split; try discriminate; reflexivity.
    + assert (Hf : keywords_found t <> []) by (rewrite Ek; discriminate).
      unfold a. rewrite (analyze_keyword_case lower text speech_duration Ht Hf).
      cbn [confidence transcription]. split; [|reflexivity].
      pose proof (keyword_confidence_range (len (keywords_found t))) as Hr.
      assert (Hl : (1 <= len (keywords_found t))%Z).
      { unfold len. rewrite Ek. cbn [length]. lia. }
      specialize (Hr Hl). fold t. lra.
Qed.

(** ** The test table *)

(** Every case of the table of [test_amd.py] has the outcome the table
    expects: [test_detector] succeeds. *)
Theorem test_detector_passes : test_detector lower_latin1 = true.
Proof. vm_compute. reflexivity. Qed.

(** ** What a session keeps *)

Section SessionInvariants.

Variable lower : str -> str.
Context {R : Type} `{Recognizer R}.

Lemma new_session_coherent id rate : coherent lower (new_session id rate).
Proof. reflexivity. Qed.

Lemma process_audio_coherent (self : AMDSession R) audio_data :
  coherent lower self -> coherent lower (fst (process_audio lower self audio_data)).
Proof.
  intros Hc. unfold process_audio.
  destruct (decision_made self) eqn:Ed; [exact Hc|].
  unfold coherent in *.
  destruct (final_result self) as [r|] eqn:Ef; [destruct Hc; congruence|].
  break_step; cbn; try rewrite Ef; try exact Ed; (split; [reflexivity|]).
  - match goal with Hq : Qle_bool _ _ = true |- _ =>
      apply Qle_bool_iff in Hq; cbn in Hq end.
    match goal with Hq : (0.70 <= _)%Q |- decided_by _ ?s _ =>
      exact (by_utterance lower s Hq) end.
  - match goal with Hq : _ && _ = true |- _ =>
      apply andb_true_iff in Hq; destruct Hq as [Hm Hq];
      apply Outcome_eqb_eq in Hm; apply Qle_bool_iff in Hq end.
    match goal with
      Hm : result _ = MACHINE, Hq : (0.85 <= _)%Q |- decided_by _ ?s _ =>
        exact (by_partial lower s _ Hm Hq) end.
Qed.

Lemma force_decision_coherent (self : AMDSession R) :
  coherent lower self -> coherent lower (fst (force_decision lower self)).
Proof.
  intros Hc. unfold force_decision.
  destruct (decision_made self) eqn:Ed; [exact Hc|].
  unfold coherent.
  break_step; cbn; (split; [reflexivity|]);
    match goal with |- decided_by _ ?s _ => exact (by_force lower s) end.
Qed.

Lemma after_calls_coherent (cs : list Call) (self : AMDSession R) :
  coherent lower self -> coherent lower (after_calls lower self cs).
Proof.
  unfold after_calls. revert self.
  induction cs as [|c cs IH]; intros self Hc; simpl; [exact Hc|].
  apply IH. destruct c; simpl.
  - apply process_audio_coherent, Hc.
  - apply force_decision_coherent, Hc.
Qed.

Lemma after_calls_decided (cs : list Call) (self : AMDSession R) :
  decision_made self = true -> after_calls lower self cs = self.
Proof.
  unfold after_calls. intros Hd.
  induction cs as [|c cs IH]; simpl; [reflexivity|].
  rewrite after_call_decided by exact Hd. exact IH.
Qed.

Lemma after_calls_app (cs cs' : list Call) (self : AMDSession R) :
  after_calls lower self (cs ++ cs')
  = after_calls lower (after_calls lower self cs) cs'.
Proof. unfold after_calls. apply fold_left_app. Qed.

End SessionInvariants.

Section SessionKeeps.

Variable lower : str -> str.
Context {R : Type} `{Recognizer R}.

Lemma after_call_keeps (self : AMDSession R) (c : Call) :
  session_call_id (after_call lower self c) = session_call_id self
  /\ sample_rate (after_call lower self c) = sample_rate self
  /\ exists more,
       accumulated_text (after_call lower self c)
       = accumulated_text self ++ more.
Proof.
  destruct c as [audio_data|]; simpl.
  - unfold process_audio. break_step; cbn; repeat split;
      try (exists []; rewrite app_nil_r; reflexivity);
      eexists; reflexivity.
  - unfold force_decision. break_step; cbn; repeat split;
      try (exists []; rewrite app_nil_r; reflexivity);
      eexists; reflexivity.
Qed.

Lemma after_calls_call_id (self : AMDSession R) (calls : list Call) :
  session_call_id (after_calls lower self calls) = session_call_id self.
Proof.
  unfold after_calls. revert self.
  induction calls as [|c calls IH]; intros self; simpl; [reflexivity|].
  rewrite IH. apply after_call_keeps.
Qed.

End SessionKeeps.

(** X8.  Whatever calls are made on a session, its call identifier and its
    sample rate stay what they were, and its transcript only grows: the
    transcript before is a prefix of the transcript after. *)
Theorem session_keeps
    (lower : str -> str) {R : Type} `{Recognizer R}
    (self : AMDSession R) (calls : list Call) :
  session_call_id (after_calls lower self calls) = session_call_id self
  /\ sample_rate (after_calls lower self calls) = sample_rate self
  /\ exists more,
       accumulated_text (after_calls lower self calls)
       = accumulated_text self ++ more.
Proof.
  unfold after_calls. revert self.
  induction calls as [|c calls IH]; intros self; simpl.
  - repeat split. exists []. rewrite app_nil_r. reflexivity.
  - destruct (IH (after_call lower self c)) as (Hid & Hrate & more & Hacc).
    destruct (after_call_keeps lower self c) as (Hid' & Hrate' & more' & Hacc').
    split; [congruence|]. split; [congruence|].
    exists (more' ++ more). rewrite Hacc, Hacc', app_assoc. reflexivity.
Qed.

(** X9.  In a session reached from a new one by any calls, a decision is
    stored exactly when the decision flag is set. *)
Theorem decision_has_result
    (lower : str -> str) {R : Type} `{Recognizer R}
    (id : str) (rate : Z) (calls : list Call) :
  let self := after_calls lower (new_session id rate) calls in
  decision_made self = true <-> exists r, final_result self = Some r.
Proof.
  intros self.
  pose proof (after_calls_coherent lower calls _
                (new_session_coherent lower id rate)) as Hc.
  fold self in Hc. unfold coherent in Hc.
  destruct (final_result self) as [r|].
  - destruct Hc as [Hd _]. split; [intros _; exists r; reflexivity | auto].
  - split; [congruence | intros [r Hr]; discriminate].
Qed.

Lemma decided_by_flags lower {R} (self : AMDSession R) (r : Analysis) :
  decided_by lower self r ->
  call_id r = Some (session_call_id self)
  /\ ~ (partial r = Some true /\ forced r = Some true).
Proof.
  intros [analysis Hc | p quick Hm Hc | analysis]; cbn.
  - split; [reflexivity|]. intros [Hp _].
    unfold analysis in Hp.
    rewrite (proj1 (proj2 (analysis_forced_none lower _ _))) in Hp.
    discriminate.
  - split; [reflexivity|]. intros [_ Hf].
    unfold quick in Hf.
    rewrite (proj1 (analysis_forced_none lower _ _)) in Hf. discriminate.
  - split; [reflexivity|]. intros [Hp _].
    unfold analysis in Hp.
    rewrite (proj1 (proj2 (analysis_forced_none lower _ _))) in Hp.
    discriminate.
Qed.

(** X10.  In a session reached from a new one by any calls, the stored
    decision carries the call identifier the session was created with, and
    it is what one of the three deciding places stores for the session as
    it stands: the classification of its whole transcript and duration
    (with confidence at least 0.70, or forced), or that of one partial text
    at duration 0 (MACHINE, at least 0.85).  It is never marked both
    partial and forced. *)
Theorem decision_accounted_for
    (lower : str -> str) {R : Type} `{Recognizer R}
    (id : str) (rate : Z) (calls : list Call) (r : Analysis) :
  let self := after_calls lower (new_session id rate) calls in
  final_result self = Some r ->
  decided_by lower self r
  /\ call_id r = Some id
  /\ ~ (partial r = Some true /\ forced r = Some true).
Proof.
  intros self Hr.
  pose proof (after_calls_coherent lower calls _
                (new_session_coherent lower id rate)) as Hc.
  fold self in Hc. unfold coherent in Hc. rewrite Hr in Hc.
  destruct Hc as [_ Hby]. split; [exact Hby|].
  destruct (decided_by_flags lower self r Hby) as [Hid Hflags].
  split; [|exact Hflags].
  rewrite Hid. f_equal. unfold self. apply after_calls_call_id.
Qed.

(** ** Decisions taken on a partial utterance *)

Lemma machine_at_zero_keywords lower (p : str) :
  result (analyze_transcription lower p 0) = MACHINE ->
  keywords (analyze_transcription lower p 0)
  = Some (keywords_found (strip (lower p))).
Proof.
  unfold analyze_transcription.
  change (Qlt_bool AMD_MIN_SPEECH_FOR_MACHINE 0) with false.
  break_step; simpl; try discriminate. reflexivity.
Qed.

(** X11.  In a session reached from a new one by any calls, a decision
    marked partial is MACHINE, is not forced, lists at least two voicemail
    phrases as its keywords, and has confidence at least 0.85. *)
Theorem partial_decision_is_machine
    (lower : str -> str) {R : Type} `{Recognizer R}
    (id : str) (rate : Z) (calls : list Call) (r : Analysis) :
  final_result (after_calls lower (new_session id rate) calls) = Some r ->
  partial r = Some true ->
  result r = MACHINE
  /\ forced r = None
  /\ (0.85 <= confidence r)%Q
  /\ exists matched, keywords r = Some matched /\ (2 <= length matched)%nat.
Proof.
  intros Hr Hp.
  pose proof (after_calls_coherent lower calls _
                (new_session_coherent lower id rate)) as Hc.
  unfold coherent in Hc. rewrite Hr in Hc. destruct Hc as [_ Hby].
  destruct Hby as [analysis Hc | p quick Hm Hc | analysis]; cbn in *.
  - unfold analysis in Hp.
    rewrite (proj1 (proj2 (analysis_forced_none lower _ _))) in Hp.
    discriminate.
  - assert (Hn : (2 <= length (keywords_found (strip (lower p))))%nat).
    { destruct (le_lt_dec (length (keywords_found (strip (lower p)))) 1)
        as [Hle|Hlt]; [|lia].
      exfalso. unfold quick in Hc.
      rewrite (machine_at_zero_duration lower p Hm) in Hc.
      exact (single_keyword_confidence _ Hle Hc). }
    split; [exact Hm|].
    split; [apply (analysis_forced_none lower)|]. split; [exact Hc|].
    eexists. split; [apply machine_at_zero_keywords, Hm | exact Hn].
  - unfold analysis in Hp.
    rewrite (proj1 (proj2 (analysis_forced_none lower _ _))) in Hp.
    discriminate.
Qed.

(** ** A completed utterance *)

Lemma analyze_at_any_duration lower (text : str) (d d' : Q) :
  (length (split (strip (lower text))) <= 8)%nat
  \/ keywords_found (strip (lower text)) <> [] ->
  analyze_transcription lower text d = analyze_transcription lower text d'.
Proof.
  intros Hcase. destruct (strip (lower text)) as [|c t'] eqn:Et.
  { unfold analyze_transcription. rewrite Et. reflexivity. }
  assert (Ht : strip (lower text) <> []) by (rewrite Et; discriminate).
  rewrite <- Et in *.
  destruct (keywords_found (strip (lower text))) as [|k ks] eqn:Ek.
  - destruct Hcase as [Hw | Hk]; [|contradiction].
    rewrite !(analyze_no_keyword_case lower text _ Ht Ek).
    replace (8 <? len (split (strip (lower text))))%Z with false
      by (symmetry; apply Z.ltb_ge; unfold len; lia).
    rewrite !andb_false_r. reflexivity.
  - assert (Hf : keywords_found (strip (lower text)) <> [])
      by (rewrite Ek; discriminate).
    rewrite !(analyze_keyword_case lower text _ Ht Hf). reflexivity.
Qed.

(** X12.  On a session without decision, a completed utterance without
    text changes the recognizer only.  One with some text, on a session
    whose sample rate is not zero, is appended to the transcript after a
    space, decision or not.  When the transcript so extended, normalized,
    has at most 8 words or contains a voicemail phrase, so that its
    classification is the same at every duration, that classification is
    stored and returned exactly when its confidence is at least 0.70. *)
Theorem completed_utterance
    (lower : str -> str) {R : Type} `{Recognizer R}
    (self : AMDSession R) (audio_data : bytes)
    (rec1 rec2 : R) (text : str) :
  decision_made self = false ->
  AcceptWaveform (recognizer self) audio_data = (true, rec1) ->
  Result rec1 = (text, rec2) ->
  let transcript := accumulated_text self ++ u " " ++ text in
  let normalized := strip (lower (strip transcript)) in
  let after := fst (process_audio lower self audio_data) in
  let returned := snd (process_audio lower self audio_data) in
  (text = [] ->
   process_audio lower self audio_data
   = (mkSession (session_call_id self) (sample_rate self) rec2
                (accumulated_text self) (total_speech_duration self)
                false (final_result self),
      Return None))
  /\ (text <> [] -> sample_rate self <> 0%Z ->
      accumulated_text after = transcript
      /\ recognizer after = rec2
      /\ ((length (split normalized) <= 8)%nat
          \/ keywords_found normalized <> [] ->
          forall d,
            let analysis :=
              analyze_transcription lower (strip transcript) d in
            let final := with_call_id (session_call_id self) analysis in
            ((0.70 <= confidence analysis)%Q ->
             returned = Return (Some final)
             /\ decision_made after = true
             /\ final_result after = Some final)
            /\ ((confidence analysis < 0.70)%Q ->
                returned = Return None
                /\ decision_made after = false
                /\ final_result after = final_result self))).
Proof.
  intros Hd Ha Hres transcript normalized after returned.
  unfold after, returned, process_audio. rewrite Hd, Ha, Hres. split.
  - intros ->. cbn [truthy]. unfold set_recognizer. rewrite Hd. reflexivity.
  - intros Ht Hrate.
    destruct text as [|c text']; [contradiction|]. cbn [truthy].
    cbn [sample_rate set_accumulated_text set_recognizer
         set_total_speech_duration accumulated_text total_speech_duration
         session_call_id decision_made final_result recognizer].
    replace (sample_rate self * 2 =? 0)%Z with false
      by (symmetry; apply Z.eqb_neq; lia).
    fold transcript.
    set (duration := (total_speech_duration self
                      + inject_Z (len audio_data)
                        / inject_Z (sample_rate self * 2))%Q).
    split; [destruct (Qle_bool _ _); reflexivity|].
    split; [destruct (Qle_bool _ _); reflexivity|].
    intros Hcase d.
    set (analysis := analyze_transcription lower (strip transcript) d).
    assert (Hsame : analyze_transcription lower (strip transcript) duration
                    = analysis)
      by (apply analyze_at_any_duration; exact Hcase).
    rewrite Hsame. split.
    + intros Hc. apply Qle_bool_iff in Hc. rewrite Hc. cbn.
      repeat split.
    + intros Hc. replace (Qle_bool 0.70 (confidence analysis)) with false.
      * cbn. repeat split. exact Hd.
      * symmetry. destruct (Qle_bool 0.70 (confidence analysis)) eqn:E;
          [|reflexivity].
        apply Qle_bool_iff in E. lra.
Qed.

(** X13.  [process_audio] raises [ZeroDivisionError] exactly when, without
    a decision yet, a completed utterance with some text arrives on a
    session whose sample rate is zero.  The text has then been appended to
    the transcript already; the duration, the decision flag and the stored
    result are as they were. *)
Theorem zero_sample_rate_raises
    (lower : str -> str) {R : Type} `{Recognizer R}
    (self : AMDSession R) (audio_data : bytes) :
  let accepted := fst (AcceptWaveform (recognizer self) audio_data) in
  let text :=
    fst (Result (snd (AcceptWaveform (recognizer self) audio_data))) in
  let after := fst (process_audio lower self audio_data) in
  (snd (process_audio lower self audio_data) = Raise ZeroDivisionError
   <-> decision_made self = false
       /\ sample_rate self = 0%Z
       /\ accepted = true
       /\ text <> [])
  /\ (snd (process_audio lower self audio_data) = Raise ZeroDivisionError ->
      accumulated_text after = accumulated_text self ++ u " " ++ text
      /\ total_speech_duration after = total_speech_duration self
      /\ decision_made after = false
      /\ final_result after = final_result self).
Proof.
  cbv zeta. unfold process_audio.
  destruct (decision_made self) eqn:Hd.
  { cbn [fst snd]. split.
    - split; [discriminate | intros (Hf & _); discriminate].
    - discriminate. }
  destruct (AcceptWaveform (recognizer self) audio_data) as [accepted rec1].
  cbn [fst snd]. destruct accepted.
  - destruct (Result rec1) as [text rec2]. cbn [fst].
    destruct text as [|c text']; cbn [truthy].
    + cbn [fst snd]. split.
      * split; [discriminate | intros (_ & _ & _ & Hn); contradiction].
      * discriminate.
    + change (sample_rate
                (set_accumulated_text (set_recognizer self rec2)
                   (accumulated_text (set_recognizer self rec2)
                    ++ u " " ++ c :: text'))) with (sample_rate self).
      destruct (sample_rate self * 2 =? 0)%Z eqn:Ez.
      * apply Z.eqb_eq in Ez. cbn [fst snd]. split.
        -- split; [|reflexivity]. intros _.
           repeat split; try discriminate. lia.
        -- intros _. cbn. repeat split. exact Hd.
      * apply Z.eqb_neq in Ez.
        destruct (Qle_bool _ _); cbn [fst snd];
          (split; [split; [discriminate | intros (_ & Hz & _); lia]
                  | discriminate]).
  - destruct (PartialResult rec1) as [p rec2].
    destruct (truthy p).
    + destruct (_ && _); cbn [fst snd];
        (split; [split; [discriminate | intros (_ & _ & Hf & _); discriminate]
                | discriminate]).
    + cbn [fst snd].
      split; [split; [discriminate | intros (_ & _ & Hf & _); discriminate]
             | discriminate].
Qed.

(** ** A call on which nothing is said *)

Lemma hears_nothing_step
    (lower : str -> str) {R : Type} `{Recognizer R}
    (self : AMDSession R) (audio_data : bytes) (frames : list bytes) :
  decision_made self = false ->
  hears_nothing (recognizer self) (audio_data :: frames) ->
  exists rec,
    process_audio lower self audio_data = (set_recognizer self rec, Return None)
    /\ hears_nothing rec frames.
Proof.
  intros Hd Hn. inversion Hn as [|? rec1 rec2 ? ? Ha Hr Hrest
                                  |? rec1 rec2 ? ? Ha Hr Hrest]; subst;
    exists rec2; (split; [|exact Hrest]);
    unfold process_audio; rewrite Hd, Ha, Hr; reflexivity.
Qed.

(** X14.  On a session without decision, frames that the recognizer answers
    with empty texts, completed or partial, bring no decision and change
    neither the transcript nor the duration.  If the transcript is empty
    and the recognizer has no text left when the decision is forced, the
    forced decision is UNKNOWN with confidence 0.0. *)
Theorem nothing_heard_nothing_decided
    (lower : str -> str) {R : Type} `{Recognizer R}
    (self : AMDSession R) (frames : list bytes) :
  lower [] = [] ->
  decision_made self = false ->
  hears_nothing (recognizer self) frames ->
  let self' := after_calls lower self (List.map CallProcessAudio frames) in
  decision_made self' = false
  /\ accumulated_text self' = accumulated_text self
  /\ total_speech_duration self' = total_speech_duration self
  /\ (accumulated_text self = [] ->
      fst (FinalResult (recognizer self')) = [] ->
      exists r,
        snd (force_decision lower self') = Some r
        /\ result r = UNKNOWN /\ confidence r = 0.0%Q
        /\ forced r = Some true).
Proof.
  intros Hlower Hd Hn.
  assert (Hrun : forall (s : AMDSession R),
             decision_made s = false ->
             hears_nothing (recognizer s) frames ->
             decision_made
               (after_calls lower s (List.map CallProcessAudio frames)) = false
             /\ accumulated_text
                  (after_calls lower s (List.map CallProcessAudio frames))
                = accumulated_text s
             /\ total_speech_duration
                  (after_calls lower s (List.map CallProcessAudio frames))
                = total_speech_duration s).
  { clear self Hd Hn. unfold after_calls.
    induction frames as [|a frames IH]; intros s Hd Hn; simpl; [auto|].
    destruct (hears_nothing_step lower s a frames Hd Hn) as (rec & Hp & Hrest).
    rewrite Hp. cbn [fst]. apply (IH (set_recognizer s rec) Hd Hrest). }
  destruct (Hrun self Hd Hn) as (Hd' & Hacc & Hdur). cbv zeta.
  split; [exact Hd'|]. split; [exact Hacc|]. split; [exact Hdur|].
  intros Hempty Hfinal.
  rewrite (force_decision_undecided lower _ Hd'). cbn [snd].
  rewrite Hfinal, Hacc, Hempty. cbn [truthy].
  eexists. split; [reflexivity|].
  unfold analyze_transcription. change (strip []) with ([] : str).
  rewrite Hlower. repeat split.
Qed.

(** ** The single request ([analyze_audio]) *)

(** X15.  With a sample rate that is not zero, [analyze_audio] returns one
    decision, which carries the call identifier of the request; the
    decision is a forced one exactly when the audio did not bring one by
    itself, and otherwise has confidence at least 0.70 and is not
    UNKNOWN. *)
Theorem analyze_audio_decides
    (lower : str -> str) {R : Type} `{Recognizer R}
    (id : str) (audio_data : bytes) (rate : Z) :
  rate <> 0%Z ->
  exists r,
    analyze_audio lower id audio_data rate = Return (Some r)
    /\ call_id r = Some id
    /\ (forced r = Some true
        <-> snd (process_audio lower (new_session id rate) audio_data)
            = Return None)
    /\ (forced r <> Some true ->
        (0.70 <= confidence r)%Q /\ result r <> UNKNOWN).
Proof.
  intros Hrate. unfold analyze_audio.
  pose proof (process_audio_undecided lower (new_session id rate)
                audio_data eq_refl) as (_ & Hid & Hm).
  pose proof (process_audio_coherent lower (new_session id rate) audio_data
                (new_session_coherent lower id rate)) as Hc.
  destruct (process_audio lower (new_session id rate) audio_data)
    as [session [[r|]|e]]; cbn [fst snd] in Hm, Hid, Hc |- *.
  - destruct Hm as ((Hf & Hconf & Hres) & _ & Hfinal).
    unfold coherent in Hc. rewrite Hfinal in Hc. destruct Hc as [_ Hby].
    exists r. split; [reflexivity|]. split.
    { rewrite (proj1 (decided_by_flags lower session r Hby)), Hid.
      reflexivity. }
    split; [|auto].
    rewrite Hf. split; discriminate.
  - destruct Hm as [Hd _].
    rewrite (force_decision_undecided lower session Hd). cbn [snd].
    eexists. split; [reflexivity|]. cbn [call_id forced with_forced with_call_id].
    split; [rewrite Hid; reflexivity|].
    split; [split; reflexivity|]. intros Hf. contradiction.
  - destruct Hm as [Hz _]. cbn in Hz. contradiction.
Qed.

(** X16.  [analyze_audio] ends with an exception instead of a decision
    exactly in the case of the division by zero: the sample rate of the
    request is zero and the recognizer completes an utterance with some
    text on the audio. *)
Theorem analyze_audio_fails
    (lower : str -> str) {R : Type} `{Recognizer R}
    (id : str) (audio_data : bytes) (rate : Z) :
  analyze_audio lower id audio_data rate = Raise ZeroDivisionError
  <-> rate = 0%Z
      /\ fst (AcceptWaveform (create_recognizer rate) audio_data) = true
      /\ fst (Result (snd (AcceptWaveform (create_recognizer rate) audio_data)))
         <> [].
Proof.
  unfold analyze_audio, process_audio. cbn [decision_made new_session recognizer].
  destruct (AcceptWaveform (create_recognizer rate) audio_data)
    as [accepted rec1]. cbn [fst snd].
  destruct accepted.
  - destruct (Result rec1) as [text rec2]. cbn [fst].
    destruct text as [|c text']; cbn [truthy].
    + cbn. split; [discriminate | intros (_ & _ & Hn); contradiction].
    + change (sample_rate
                (set_accumulated_text
                   (set_recognizer (new_session id rate) rec2)
                   (accumulated_text
                      (set_recognizer (new_session id rate) rec2)
                    ++ u " " ++ c :: text'))) with rate.
      destruct (rate * 2 =? 0)%Z eqn:Ez.
      * apply Z.eqb_eq in Ez. split; [|reflexivity].
        intros _. repeat split; try discriminate. lia.
      * apply Z.eqb_neq in Ez.
        destruct (Qle_bool _ _); cbn;
          (split; [discriminate | intros (Hz & _); lia]).
  - destruct (PartialResult rec1) as [p rec2].
    destruct (truthy p).
    + destruct (_ && _); cbn;
        (split; [discriminate | intros (_ & Hf & _); discriminate]).
    + cbn. split; [discriminate | intros (_ & Hf & _); discriminate].
Qed.

(** ** The loops of the two handlers *)

Section Loops.

Variable lower : str -> str.
Context {R : Type} `{Recognizer R}.

Lemma stream_loop_summary (turns : list Turn) (self : AMDSession R) :
  decision_made self = false ->
  loop_summary self turns (stream_loop lower self turns).
Proof.
  revert self. induction turns as [|turn turns IH]; intros self Hd.
  - cbn. repeat split; auto.
  - cbn [stream_loop].
    destruct (Qlt_bool AMD_DECISION_TIMEOUT_SECONDS (elapsed turn)) eqn:Et.
    + rewrite (force_decision_undecided lower self Hd). cbn.
      eexists [ForceDecision], _. split; [reflexivity|].
      split; [reflexivity|]. split; [reflexivity|]. left.
      split; [reflexivity|]. split; [reflexivity|].
      apply Exists_cons_hd. apply Qlt_bool_iff, Et.
    + assert (Hnot : ~ past_deadline turn).
      { unfold past_deadline. intros Hlt.
        apply Qlt_bool_iff in Hlt. congruence. }
      destruct (received turn) as [audio_data| |] eqn:Er.
      * pose proof (process_audio_undecided lower self audio_data Hd)
          as (Hsr & _ & Hm).
        destruct (process_audio lower self audio_data)
          as [self' [[r|]|e]] eqn:Ep; cbn [fst snd] in Hsr, Hm.
        -- destruct Hm as ((Hf & _) & _ & Hfinal). cbn.
           exists [ProcessAudio], r. split; [reflexivity|].
           split; [reflexivity|]. split; [exact Hfinal|].
           right. split; [reflexivity | exact Hf].
        -- destruct Hm as (Hd' & _). specialize (IH self' Hd').
           destruct (stream_loop lower self' turns)
             as [[session events] status].
           unfold loop_summary in *. destruct status.
           ++ destruct IH as (Hs & Hf & Hdd & Hall & Hconn).
              repeat split; auto; constructor; auto.
              unfold connected. rewrite Er. discriminate.
           ++ destruct IH as (before & r & He & Hs & Hfinal & Hcount).
              exists (ProcessAudio :: before), r. rewrite He.
              split; [reflexivity|]. split; [exact Hs|].
              split; [exact Hfinal|].
              destruct Hcount as [(Hn & Hf & Hex)|Hcount]; [left|right; exact Hcount].
              repeat split; auto.
           ++ destruct IH as (Hs & Hf & Hdd & Hex).
              repeat split; auto.
           ++ destruct IH as (Hz & before & e & He & Hs & Hf).
              split; [congruence|].
              exists (ProcessAudio :: before), e. rewrite He.
              repeat split; auto.
        -- destruct Hm as (Hz & _). cbn. split; [exact Hz|].
           exists [ProcessAudio], e. repeat split.
      * specialize (IH self Hd).
        destruct (stream_loop lower self turns) as [[session events] status].
        unfold loop_summary in *. destruct status.
        -- destruct IH as (Hs & Hf & Hdd & Hall & Hconn).
           repeat split; auto; constructor; auto.
           unfold connected. rewrite Er. discriminate.
        -- destruct IH as (before & r & He & Hs & Hfinal & Hcount).
           exists before, r. repeat split; auto.
           destruct Hcount as [(Hn & Hf & Hex)|Hcount]; [left|right; exact Hcount].
           repeat split; auto.
        -- destruct IH as (Hs & Hf & Hdd & Hex). repeat split; auto.
        -- exact IH.
      * cbn. repeat split; auto; try (apply Exists_cons_hd; exact Er).
Qed.

(** The loop of [websocket_stream] is the loop of [websocket_amd] without
    the error message. *)
Lemma configured_loop_stream_loop (turns : list Turn) (self : AMDSession R) :
  configured_loop lower self turns
  = let '(session, events, status) := stream_loop lower self turns in
    (session, without_errors events, status).
Proof.
  revert self. induction turns as [|turn turns IH]; intros self.
  - reflexivity.
  - cbn [configured_loop stream_loop].
    destruct (Qlt_bool AMD_DECISION_TIMEOUT_SECONDS (elapsed turn)).
    + destruct (force_decision lower self) as [session [r|]]; reflexivity.
    + destruct (received turn) as [audio_data| |]; [|apply IH|reflexivity].
      destruct (process_audio lower self audio_data)
        as [self' [[r|]|e]]; try reflexivity.
      rewrite IH.
      destruct (stream_loop lower self' turns) as [[session events] status].
      reflexivity.
Qed.

Lemma without_errors_id (events : list Event) :
  (forall e, ~ In (Send (Error e)) events) -> without_errors events = events.
Proof.
  induction events as [|ev events IH]; intros Hno; [reflexivity|].
  assert (Hrest : without_errors events = events).
  { apply IH. intros e Hin. apply (Hno e). right. exact Hin. }
  destruct ev as [| |[r| |e]]; cbn; rewrite ?Hrest; try reflexivity.
  exfalso. apply (Hno e). left. reflexivity.
Qed.

Lemma sent_no_error (events : list Event) (e : Exception) :
  In (Send (Error e)) events -> In (Error e) (sent events).
Proof.
  induction events as [|ev events IH]; [contradiction|].
  intros [Heq|Hin].
  - subst ev. left. reflexivity.
  - destruct ev; cbn; auto.
Qed.

End Loops.

Section HandlerFacts.

Variable lower : str -> str.
Context {R : Type} `{Recognizer R}.

(** The loop started on a new session with a sample rate that is not zero
    sends no error message. *)
Lemma stream_loop_no_error (id : str) (rate : Z) (turns : list Turn) :
  rate <> 0%Z ->
  snd (stream_loop lower (new_session id rate) turns) <> Failed
  /\ forall m, In m (sent (snd (fst (stream_loop lower (new_session id rate)
                                                 turns)))) ->
               exists r, m = Decision r.
Proof.
  intros Hrate.
  pose proof (stream_loop_summary lower turns (new_session id rate) eq_refl)
    as Hsum.
  destruct (stream_loop lower (new_session id rate) turns)
    as [[session events] status].
  cbn [fst snd]. unfold loop_summary in Hsum. destruct status.
  - destruct Hsum as (Hs & _). rewrite Hs. split; [discriminate|].
    intros m [].
  - destruct Hsum as (before & r & He & Hs & _). split; [discriminate|].
    intros m Hin. rewrite He, sent_app, Hs in Hin. cbn in Hin.
    destruct Hin as [<-|[]]. exists r. reflexivity.
  - destruct Hsum as (Hs & _). rewrite Hs. split; [discriminate|].
    intros m [].
  - destruct Hsum as [Hz _]. cbn in Hz. contradiction.
Qed.

Lemma stream_loop_without_errors (id : str) (rate : Z) (turns : list Turn) :
  rate <> 0%Z ->
  without_errors (snd (fst (stream_loop lower (new_session id rate) turns)))
  = snd (fst (stream_loop lower (new_session id rate) turns)).
Proof.
  intros Hrate. apply without_errors_id. intros e Hin.
  apply sent_no_error in Hin.
  destruct (stream_loop_no_error id rate turns Hrate) as [_ Hdec].
  destruct (Hdec _ Hin) as [r Hr]. discriminate.
Qed.

Lemma discard_session_delete (id : str) (registry : gmap (list N) nat) :
  discard_session id registry = delete id registry.
Proof.
  unfold discard_session. destruct (registry !! id) eqn:E; [reflexivity|].
  symmetry. apply delete_id. exact E.
Qed.


End HandlerFacts.

(** ** The handler of [/ws/{call_id}] *)



(** X20.  No decision is forced early: as long as no reading of the clock
    exceeds the deadline, [websocket_amd] does not call [force_decision],
    and a decision it sends is not a forced one. *)
Theorem no_early_force
    (lower : str -> str) {R : Type} `{Recognizer R}
    (w : World R) (id : str) (turns : list Turn) :
  Forall (fun turn => (elapsed turn <= AMD_DECISION_TIMEOUT_SECONDS)%Q) turns ->
  times_forced (snd (fst (websocket_amd lower w id turns))) = 0%nat
  /\ forall r, In (Decision r)
                  (sent (snd (fst (websocket_amd lower w id turns)))) ->
               forced r = None.
Proof.
  intros Hall. unfold websocket_amd.
  destruct (create_session w id 8000) as [ref w1].
  pose proof (stream_loop_summary lower turns (new_session id 8000) eq_refl)
    as Hsum.
  destruct (stream_loop lower (new_session id 8000) turns)
    as [[session events] status].
  cbn [fst snd]. unfold loop_summary in Hsum.
  assert (Hnever : ~ Exists past_deadline turns).
  { intros Hex. apply List.Exists_exists in Hex as (turn & Hin & Hpast).
    pose proof (proj1 (List.Forall_forall _ turns) Hall turn Hin) as Hle.
    unfold past_deadline in Hpast. cbv beta in Hle. lra. }
  destruct status.
  - destruct Hsum as (Hs & Hf & _). rewrite Hs. split; [exact Hf|].
    intros r [].
  - destruct Hsum as (before & r & He & Hs & _ & Hcount).
    destruct Hcount as [(_ & _ & Hex)|[Hn Hf]]; [contradiction|].
    rewrite He, sent_app, times_forced_app, Hs, Hn. cbn.
    split; [reflexivity|]. intros r' [Heq|[]]. congruence.
  - destruct Hsum as (Hs & Hf & _). rewrite Hs. split; [exact Hf|].
    intros r [].
  - destruct Hsum as [Hz _]. cbn in Hz. discriminate.
Qed.

(** ** The handler of [/ws/stream] *)

(** X21.  Configured with a non-empty call identifier and a sample rate of
    8000, given or by default, [websocket_stream] does what [websocket_amd]
    does for that call on the same turns, after its ready message: the same
    events, the same status, the same registry and sessions. *)
Theorem websocket_stream_as_websocket_amd
    (lower : str -> str) {R : Type} `{Recognizer R}
    (w : World R) (config : Config) (id : str) (turns : list Turn) :
  config_call_id config = Some id ->
  id <> [] ->
  config_sample_rate config = None \/ config_sample_rate config = Some 8000%Z ->
  websocket_stream lower w (ConfigObject config) turns
  = (fst (fst (websocket_amd lower w id turns)),
     SendReady id
       :: List.map InLoop (snd (fst (websocket_amd lower w id turns))),
     snd (websocket_amd lower w id turns)).
Proof.
  intros Hid Hne Hrate. unfold websocket_stream, websocket_amd.
  rewrite Hid. change (default (u "unknown") (Some id)) with id.
  assert (Hr : default 8000%Z (config_sample_rate config) = 8000%Z)
    by (destruct Hrate as [-> | ->]; reflexivity).
  rewrite Hr. destruct (create_session w id 8000) as [ref w1].
  rewrite configured_loop_stream_loop.
  pose proof (stream_loop_without_errors lower id 8000 turns
                ltac:(discriminate)) as Hsame.
  destruct (stream_loop lower (new_session id 8000) turns)
    as [[session events] status].
  cbn [fst snd] in Hsame |- *. lazy beta iota zeta. rewrite Hsame.
  destruct id as [|c id']; [contradiction|]. cbn [truthy].
  reflexivity.
Qed.

(** X22.  [websocket_stream] registers the session under the call
    identifier of the configuration, "unknown" when the key is absent, and
    announces it in its ready message.  When it has ended, the entry of a
    non-empty identifier is deleted; the entry of the empty identifier is
    not, and keeps referring to the session of the call that ended. *)
Theorem websocket_stream_registry
    (lower : str -> str) {R : Type} `{Recognizer R}
    (w w' : World R) (config : Config) (turns : list Turn)
    (events : list StreamEvent) (status : Status) :
  let id := default (u "unknown") (config_call_id config) in
  websocket_stream lower w (ConfigObject config) turns = (w', events, status) ->
  (exists rest, events = SendReady id :: rest)
  /\ (status = Running \/ id = [] ->
      active_sessions w' = <[id := fresh (dom (heap w))]> (active_sessions w))
  /\ (status <> Running -> id <> [] ->
      active_sessions w' = delete id (active_sessions w)).
Proof.
  intros id. unfold websocket_stream, create_session. fold id.
  destruct (configured_loop lower
              (new_session id (default 8000%Z (config_sample_rate config)))
              turns) as [[session events'] status'].
  intros Heq. injection Heq as <- <- <-. cbn [active_sessions].
  split; [eexists; reflexivity|]. split.
  - intros [-> | Hid]; [reflexivity|].
    rewrite Hid. cbn [truthy]. destruct status'; reflexivity.
  - intros Hs Hid. destruct id as [|c id']; [contradiction|]. cbn [truthy].
    destruct status'; try contradiction;
      rewrite discard_session_delete; apply delete_insert_eq.
Qed.

(** X23.  When the loop of a configured [websocket_stream] is left by an
    exception, the client was sent the ready message and nothing else,
    neither a decision nor an error message, and no decision was forced.
    This happens when the configuration gives the sample rate 0 and, at the
    first turn, before the deadline, the recognizer completes an utterance
    with some text. *)
Theorem websocket_stream_failure
    (lower : str -> str) {R : Type} `{Recognizer R}
    (w : World R) (config : Config) (turns : list Turn) :
  let run := websocket_stream lower w (ConfigObject config) turns in
  (snd run = Failed ->
   exists steps,
     snd (fst run)
     = SendReady (default (u "unknown") (config_call_id config))
         :: List.map InLoop steps
     /\ sent steps = [] /\ times_forced steps = 0%nat)
  /\ (forall turn rest audio_data,
        config_sample_rate config = Some 0%Z ->
        turns = turn :: rest ->
        (elapsed turn <= AMD_DECISION_TIMEOUT_SECONDS)%Q ->
        received turn = Bytes audio_data ->
        fst (AcceptWaveform (create_recognizer 0) audio_data) = true ->
        fst (Result (snd (AcceptWaveform (create_recognizer 0) audio_data)))
        <> [] ->
        snd run = Failed).
Proof.
  cbv zeta. split.
  - unfold websocket_stream.
    destruct (create_session w _ _) as [ref w1].
    rewrite configured_loop_stream_loop.
    pose proof (stream_loop_summary lower turns
                  (new_session (default (u "unknown") (config_call_id config))
                               (default 8000%Z (config_sample_rate config)))
                  eq_refl) as Hsum.
    destruct (stream_loop lower _ turns) as [[session steps] status].
    lazy beta iota zeta. cbn [fst snd]. intros ->.
    unfold loop_summary in Hsum.
    destruct Hsum as (_ & before & e & He & Hs & Hf).
    eexists. split; [reflexivity|]. rewrite He.
    clear - Hs Hf. induction before as [|ev before IH]; [split; reflexivity|].
    destruct ev as [| |[r| |e']]; cbn in Hs, Hf |- *; try discriminate;
      apply IH; assumption.
  - intros turn rest audio_data Hrate -> Hle Hrec Hacc Htext.
    unfold websocket_stream. rewrite Hrate.
    change (default 8000%Z (Some 0%Z)) with 0%Z.
    destruct (create_session w _ 0) as [ref w1].
    cbn [configured_loop].
    replace (Qlt_bool AMD_DECISION_TIMEOUT_SECONDS (elapsed turn)) with false
      by (symmetry; apply Qlt_bool_false; exact Hle).
    rewrite Hrec. unfold process_audio.
    cbn [decision_made new_session recognizer].
    destruct (AcceptWaveform (create_recognizer 0) audio_data)
      as [accepted rec1]. cbn [fst snd] in Hacc, Htext. subst accepted.
    destruct (Result rec1) as [text rec2]. cbn [fst] in Htext.
    destruct text as [|c text']; [contradiction|]. reflexivity.
Qed.

(** X24.  Configured with a sample rate that is not zero, [websocket_stream]
    sends, after its ready message, exactly one decision and stops, on any
    turns in which the client does not disconnect and the clock is at some
    turn seen past the deadline. *)
Theorem websocket_stream_one_decision
    (lower : str -> str) {R : Type} `{Recognizer R}
    (w : World R) (config : Config) (turns : list Turn) :
  default 8000%Z (config_sample_rate config) <> 0%Z ->
  Forall connected turns ->
  Exists past_deadline turns ->
  exists w' before r,
    websocket_stream lower w (ConfigObject config) turns
    = (w',
       SendReady (default (u "unknown") (config_call_id config))
         :: List.map InLoop (before ++ [Send (Decision r)]),
       Closed)
    /\ sent before = []
    /\ (times_forced before <= 1)%nat.
Proof.
  intros Hrate Hconn Hlate. unfold websocket_stream.
  destruct (create_session w _ _) as [ref w1].
  rewrite configured_loop_stream_loop.
  pose proof (stream_loop_without_errors lower
                (default (u "unknown") (config_call_id config))
                (default 8000%Z (config_sample_rate config)) turns Hrate)
    as Hsame.
  pose proof (stream_loop_summary lower turns
                (new_session (default (u "unknown") (config_call_id config))
                             (default 8000%Z (config_sample_rate config)))
                eq_refl) as Hsum.
  destruct (stream_loop lower _ turns) as [[session steps] status].
  cbn [fst snd] in Hsame. lazy beta iota zeta. rewrite Hsame.
  unfold loop_summary in Hsum. destruct status.
  - exfalso. destruct Hsum as (_ & _ & _ & Hall & _).
    apply List.Exists_exists in Hlate as (turn & Hin & Hpast).
    exact (proj1 (List.Forall_forall _ turns) Hall turn Hin Hpast).
  - destruct Hsum as (before & r & He & Hs & _ & Hcount).
    eexists _, before, r. rewrite He. split; [reflexivity|].
    split; [exact Hs|]. destruct Hcount as [(Hn & _)|(Hn & _)]; lia.
  - exfalso. destruct Hsum as (_ & _ & _ & Hex).
    apply List.Exists_exists in Hex as (turn & Hin & Hdis).
    exact (proj1 (List.Forall_forall _ turns) Hconn turn Hin Hdis).
  - exfalso. destruct Hsum as [Hz _]. cbn in Hz. contradiction.
Qed.

(** ** The further properties at work on concrete inputs *)

Lemma sustained_speech_rule_witness :
  let text := u "uno dos tres cuatro cinco seis siete ocho nueve diez" in
  let t := strip (lower_latin1 text) in
  let a := analyze_transcription lower_latin1 text 3 in
  (keywords_found t = []
   /\ (AMD_MIN_SPEECH_FOR_MACHINE < 3)%Q
   /\ (8 < length (split t))%nat)
  /\ result a = MACHINE /\ confidence a = 0.75%Q.
Proof.
  cbv zeta.
  assert (Hyp : keywords_found
                  (strip (lower_latin1
                     (u "uno dos tres cuatro cinco seis siete ocho nueve diez")))
                = []
                /\ (AMD_MIN_SPEECH_FOR_MACHINE < 3)%Q
                /\ (8 < length
                      (split (strip (lower_latin1
                         (u "uno dos tres cuatro cinco seis siete ocho nueve diez")))))%nat).
  { split; [reflexivity|]. split; [reflexivity|]. vm_compute. lia. }
  split; [exact Hyp|].
  destruct (proj1 (sustained_speech_rule lower_latin1
                     (u "uno dos tres cuatro cinco seis siete ocho nueve diez")
                     3) Hyp) as (Hr & Hc & _).
  split; [exact Hr | exact Hc].
Defined.

Lemma short_answer_rule_witness :
  let text := u "hola que tal amigo" in
  let t := strip (lower_latin1 text) in
  let a := analyze_transcription lower_latin1 text 1.5 in
  t <> [] /\ keywords_found t = [] /\ length (split t) = 4%nat
  /\ (exists g, In g human_greetings /\ occurs_in g t)
  /\ result a = HUMAN /\ confidence a = 0.70%Q.
Proof.
  cbv zeta.
  assert (Ht : strip (lower_latin1 (u "hola que tal amigo")) <> [])
    by discriminate.
  assert (Hk : keywords_found (strip (lower_latin1 (u "hola que tal amigo")))
               = []) by reflexivity.
  assert (Hw : length (split (strip (lower_latin1 (u "hola que tal amigo"))))
               = 4%nat) by reflexivity.
  split; [exact Ht|]. split; [exact Hk|]. split; [exact Hw|]. split.
  - apply greeting_occurs_iff. reflexivity.
  - destruct (short_answer_rule lower_latin1 (u "hola que tal amigo") 1.5
                Ht Hk ltac:(rewrite Hw; lia) (or_introl Hw)) as (Hr & Hc & _).
    split; [exact Hr | exact Hc].
Defined.

Lemma default_rule_witness :
  let text := u "uno dos tres cuatro cinco" in
  let t := strip (lower_latin1 text) in
  let a := analyze_transcription lower_latin1 text 9 in
  keywords_found t = [] /\ (4 < length (split t))%nat
  /\ (length (split t) <= 8)%nat
  /\ result a = UNKNOWN /\ confidence a = 0.5%Q.
Proof.
  cbv zeta.
  assert (Hk : keywords_found
                 (strip (lower_latin1 (u "uno dos tres cuatro cinco"))) = [])
    by reflexivity.
  assert (Hw : (4 < length (split (strip (lower_latin1
                                (u "uno dos tres cuatro cinco")))))%nat)
    by (vm_compute; lia).
  assert (H8 : (length (split (strip (lower_latin1
                            (u "uno dos tres cuatro cinco")))) <= 8)%nat)
    by (vm_compute; lia).
  split; [exact Hk|]. split; [exact Hw|]. split; [exact H8|].
  destruct (default_rule lower_latin1 (u "uno dos tres cuatro cinco") 9
              Hk Hw (or_introl H8)) as (Hr & Hc & _).
  split; [exact Hr | exact Hc].
Defined.

Lemma duration_is_irrelevant_witness :
  (length (split (strip (lower_latin1 (u "quien habla")))) <= 8)%nat
  /\ analyze_transcription lower_latin1 (u "quien habla") 0.8
     = analyze_transcription lower_latin1 (u "quien habla") 60.
Proof.
  assert (Hw : (length (split (strip (lower_latin1 (u "quien habla"))))
                <= 8)%nat) by (vm_compute; lia).
  split; [exact Hw|].
  exact (duration_is_irrelevant lower_latin1 (u "quien habla") 0.8 60
           (or_introl Hw)).
Defined.

Set Warnings "-inexact-float".

Lemma binary64_keyword_confidence_witness :
  (1 <= length (keywords_found (u "buzon")))%nat
  /\ PrimFloat.leb 0.85%float
       (keyword_confidence_float (length (keywords_found (u "buzon"))))
     = (2 <=? length (keywords_found (u "buzon")))%nat.
Proof.
  assert (Hn : (1 <= length (keywords_found (u "buzon")))%nat)
    by (vm_compute; lia).
  split; [exact Hn|].
  exact (proj1 (proj2 (binary64_keyword_confidence (u "buzon") Hn))).
Defined.

Set Warnings "inexact-float".

Lemma no_speech_rule_witness :
  strip (lower_latin1 (u "   ")) = []
  /\ analyze_transcription lower_latin1 (u "   ") 2
     = mkAnalysis UNKNOWN 0.0 NoSpeech [] None None None None
  /\ strip (lower_latin1 (u " Hola ")) <> []
  /\ transcription (analyze_transcription lower_latin1 (u " Hola ") 2)
     = strip (lower_latin1 (u " Hola ")).
Proof.
  assert (He : strip (lower_latin1 (u "   ")) = []) by reflexivity.
  assert (Hn : strip (lower_latin1 (u " Hola ")) <> []) by discriminate.
  split; [exact He|].
  split; [exact (proj1 (no_speech_rule lower_latin1 (u "   ") 2) He)|].
  split; [exact Hn|].
  exact (proj2 (proj2 (no_speech_rule lower_latin1 (u " Hola ") 2) Hn)).
Defined.

Lemma decision_accounted_for_witness :
  let engine := scripted [Final (u "hola")] in
  let self :=
    after_calls (H := engine) lower_latin1
                (new_session (H := engine) (u "c1") 8000)
                [CallProcessAudio [Byte.x00; Byte.x00]] in
  exists r, final_result self = Some r /\ call_id r = Some (u "c1").
Proof.
  cbv zeta. eexists. split; [reflexivity|].
  exact (proj1 (proj2 (decision_accounted_for
                         (H := scripted [Final (u "hola")]) lower_latin1
                         (u "c1") 8000
                         [CallProcessAudio [Byte.x00; Byte.x00]] _ eq_refl))).
Defined.

Lemma partial_decision_is_machine_witness :
  let engine := scripted [Partial (u "deje su mensaje")] in
  let self :=
    after_calls (H := engine) lower_latin1
                (new_session (H := engine) (u "c1") 8000)
                [CallProcessAudio [Byte.x00; Byte.x00]] in
  let r :=
    with_partial
      (with_call_id (u "c1")
         (analyze_transcription lower_latin1 (u "deje su mensaje") 0)) in
  final_result self = Some r /\ partial r = Some true
  /\ result r = MACHINE /\ (0.85 <= confidence r)%Q.
Proof.
  cbv zeta.
  assert (Hr : final_result
                 (after_calls (H := scripted [Partial (u "deje su mensaje")])
                    lower_latin1
                    (new_session (H := scripted [Partial (u "deje su mensaje")])
                                 (u "c1") 8000)
                    [CallProcessAudio [Byte.x00; Byte.x00]])
               = Some (with_partial
                         (with_call_id (u "c1")
                            (analyze_transcription lower_latin1
                               (u "deje su mensaje") 0))))
    by (vm_compute; reflexivity).
  assert (Hp : partial (with_partial
                          (with_call_id (u "c1")
                             (analyze_transcription lower_latin1
                                (u "deje su mensaje") 0))) = Some true)
    by reflexivity.
  split; [exact Hr|]. split; [exact Hp|].
  destruct (partial_decision_is_machine
              (H := scripted [Partial (u "deje su mensaje")]) lower_latin1
              (u "c1") 8000 [CallProcessAudio [Byte.x00; Byte.x00]] _
              Hr Hp) as (Hres & _ & Hc & _).
  split; [exact Hres | exact Hc].
Defined.

Lemma completed_utterance_witness :
  let engine := scripted [Final (u "hola")] in
  let self := new_session (H := engine) (u "c1") 8000 in
  let frame := [Byte.x00; Byte.x00] in
  let after := fst (process_audio (H := engine) lower_latin1 self frame) in
  let final :=
    with_call_id (u "c1")
      (analyze_transcription lower_latin1 (strip ([] ++ u " " ++ u "hola")) 0) in
  decision_made self = false
  /\ u "hola" <> []
  /\ sample_rate self <> 0%Z
  /\ accumulated_text after = [] ++ u " " ++ u "hola"
  /\ snd (process_audio (H := engine) lower_latin1 self frame)
     = Return (Some final)
  /\ final_result after = Some final
  /\ result final = HUMAN.
Proof.
  cbv zeta.
  assert (Ht : u "hola" <> []) by discriminate.
  assert (Hrate : sample_rate
                    (new_session (H := scripted [Final (u "hola")])
                                 (u "c1") 8000) <> 0%Z) by discriminate.
  split; [reflexivity|]. split; [exact Ht|]. split; [exact Hrate|].
  destruct (completed_utterance (H := scripted [Final (u "hola")])
              lower_latin1
              (new_session (H := scripted [Final (u "hola")]) (u "c1") 8000)
              [Byte.x00; Byte.x00] [Final (u "hola")] [] (u "hola")
              eq_refl eq_refl eq_refl) as [_ Htext].
  destruct (Htext Ht Hrate) as (Hacc & _ & Hdecide).
  split; [exact Hacc|].
  assert (Hshort :
            (length (split (strip (lower_latin1
                       (strip (accumulated_text
                                 (new_session
                                    (H := scripted [Final (u "hola")])
                                    (u "c1") 8000)
                               ++ u " " ++ u "hola"))))) <= 8)%nat)
    by (vm_compute; lia).
  destruct (Hdecide (or_introl Hshort) 0%Q) as [Hyes _].
  destruct (Hyes ltac:(apply Qle_bool_iff; reflexivity)) as (Hret & _ & Hfin).
  split; [exact Hret|]. split; [exact Hfin | reflexivity].
Defined.

Lemma zero_sample_rate_raises_witness :
  let engine := scripted [Final (u "hola")] in
  let self := new_session (H := engine) (u "c1") 0 in
  let run := process_audio (H := engine) lower_latin1 self [Byte.x00; Byte.x00] in
  snd run = Raise ZeroDivisionError
  /\ accumulated_text (fst run) = [] ++ u " " ++ u "hola"
  /\ decision_made (fst run) = false.
Proof.
  cbv zeta.
  destruct (zero_sample_rate_raises (H := scripted [Final (u "hola")])
              lower_latin1
              (new_session (H := scripted [Final (u "hola")]) (u "c1") 0)
              [Byte.x00; Byte.x00]) as [Hiff Hstate].
  assert (Hraise :
            snd (process_audio (H := scripted [Final (u "hola")]) lower_latin1
                   (new_session (H := scripted [Final (u "hola")]) (u "c1") 0)
                   [Byte.x00; Byte.x00]) = Raise ZeroDivisionError).
  { apply (proj2 Hiff). split; [reflexivity|]. split; [reflexivity|].
    split; [reflexivity | discriminate]. }
  split; [exact Hraise|].
  destruct (Hstate Hraise) as (Hacc & _ & Hd & _).
  split; [exact Hacc | exact Hd].
Defined.

Lemma nothing_heard_nothing_decided_witness :
  let engine := scripted [Partial []; Final []] in
  let self := new_session (H := engine) (u "c1") 8000 in
  let frames := [[Byte.x00; Byte.x00]; [Byte.x00; Byte.x00]] in
  lower_latin1 [] = []
  /\ decision_made self = false
  /\ hears_nothing (H := engine) (recognizer self) frames
  /\ decision_made
       (after_calls (H := engine) lower_latin1 self
                    (List.map CallProcessAudio frames)) = false
  /\ exists r,
       snd (force_decision (H := engine) lower_latin1
              (after_calls (H := engine) lower_latin1 self
                           (List.map CallProcessAudio frames))) = Some r
       /\ result r = UNKNOWN /\ forced r = Some true.
Proof.
  cbv zeta.
  assert (Hn : hears_nothing (H := scripted [Partial []; Final []])
                 (recognizer
                    (new_session (H := scripted [Partial []; Final []])
                                 (u "c1") 8000))
                 [[Byte.x00; Byte.x00]; [Byte.x00; Byte.x00]]).
  { eapply (hears_nothing_partial (H := scripted [Partial []; Final []]));
      [reflexivity | reflexivity |].
    eapply (hears_nothing_completed (H := scripted [Partial []; Final []]));
      [reflexivity | reflexivity |].
    apply hears_nothing_nil. }
  split; [reflexivity|]. split; [reflexivity|]. split; [exact Hn|].
  destruct (nothing_heard_nothing_decided
              (H := scripted [Partial []; Final []]) lower_latin1
              (new_session (H := scripted [Partial []; Final []])
                           (u "c1") 8000)
              [[Byte.x00; Byte.x00]; [Byte.x00; Byte.x00]]
              eq_refl eq_refl Hn) as (Hd & _ & _ & Hforce).
  split; [exact Hd|].
  destruct (Hforce eq_refl eq_refl) as (r & Hr & Hu & _ & Hf).
  exists r. split; [exact Hr|]. split; [exact Hu | exact Hf].
Defined.

Lemma analyze_audio_decides_witness :
  (8000 <> 0)%Z
  /\ exists r,
       analyze_audio (H := scripted [Final (u "hola")]) lower_latin1
                     (u "c1") [Byte.x00; Byte.x00] 8000
       = Return (Some r)
       /\ call_id r = Some (u "c1").
Proof.
  assert (Hrate : (8000 <> 0)%Z) by discriminate.
  split; [exact Hrate|].
  destruct (analyze_audio_decides (H := scripted [Final (u "hola")])
              lower_latin1 (u "c1") [Byte.x00; Byte.x00] 8000 Hrate)
    as (r & Hrun & Hid & _).
  exists r. split; [exact Hrun | exact Hid].
Defined.

Lemma analyze_audio_fails_witness :
  analyze_audio (H := scripted [Final (u "hola")]) lower_latin1
                (u "c1") [Byte.x00; Byte.x00] 0
  = Raise ZeroDivisionError.
Proof.
  apply (proj2 (analyze_audio_fails (H := scripted [Final (u "hola")])
                  lower_latin1 (u "c1") [Byte.x00; Byte.x00] 0)).
  split; [reflexivity|]. split; [reflexivity | discriminate].
Defined.



(** The clock reads exactly the deadline at the second turn: the audio of
    that turn is still processed. *)
Lemma no_early_force_witness :
  let turns :=
    [mkTurn 1.0 TimeoutError;
     mkTurn 3.5 (Bytes [Byte.x00; Byte.x00])] in
  let run :=
    websocket_amd (H := scripted [Final (u "hola")]) lower_latin1
                  (mkWorld (R := list Heard) ∅ ∅) (u "c1") turns in
  Forall (fun turn => (elapsed turn <= AMD_DECISION_TIMEOUT_SECONDS)%Q) turns
  /\ times_forced (snd (fst run)) = 0%nat
  /\ snd run = Closed.
Proof.
  cbv zeta.
  assert (Hall : Forall
            (fun turn => (elapsed turn <= AMD_DECISION_TIMEOUT_SECONDS)%Q)
            [mkTurn 1.0 TimeoutError;
             mkTurn 3.5 (Bytes [Byte.x00; Byte.x00])])
    by (repeat constructor; discriminate).
  split; [exact Hall|].
  split; [|reflexivity].
  exact (proj1 (no_early_force (H := scripted [Final (u "hola")]) lower_latin1
                  (mkWorld (R := list Heard) ∅ ∅) (u "c1") _ Hall)).
Defined.

Lemma websocket_stream_as_websocket_amd_witness :
  let w := mkWorld (R := list Heard) ∅ ∅ in
  let config := mkConfig (Some (u "c1")) None in
  config_call_id config = Some (u "c1")
  /\ u "c1" <> []
  /\ snd (websocket_stream (H := scripted []) lower_latin1 w
            (ConfigObject config) silence)
     = snd (websocket_amd (H := scripted []) lower_latin1 w (u "c1") silence).
Proof.
  cbv zeta.
  assert (Hne : u "c1" <> []) by discriminate.
  split; [reflexivity|]. split; [exact Hne|].
  rewrite (websocket_stream_as_websocket_amd (H := scripted []) lower_latin1
             (mkWorld (R := list Heard) ∅ ∅)
             (mkConfig (Some (u "c1")) None) (u "c1") silence
             eq_refl Hne (or_introl eq_refl)).
  reflexivity.
Defined.

(** A call configured with an empty identifier: its entry outlives it. *)
Lemma websocket_stream_registry_witness :
  let w := mkWorld (R := list Heard) ∅ ∅ in
  let run :=
    websocket_stream (H := scripted []) lower_latin1 w
                     (ConfigObject (mkConfig (Some []) None)) silence in
  snd run = Closed
  /\ active_sessions (fst (fst run)) !! [] = Some (fresh (dom (heap w))).
Proof.
  cbv zeta. split; [reflexivity|].
  destruct (websocket_stream_registry (H := scripted []) lower_latin1
              (mkWorld (R := list Heard) ∅ ∅)
              (fst (fst (websocket_stream (H := scripted []) lower_latin1
                           (mkWorld (R := list Heard) ∅ ∅)
                           (ConfigObject (mkConfig (Some []) None)) silence)))
              (mkConfig (Some []) None) silence
              (snd (fst (websocket_stream (H := scripted []) lower_latin1
                           (mkWorld (R := list Heard) ∅ ∅)
                           (ConfigObject (mkConfig (Some []) None)) silence)))
              (snd (websocket_stream (H := scripted []) lower_latin1
                      (mkWorld (R := list Heard) ∅ ∅)
                      (ConfigObject (mkConfig (Some []) None)) silence))
              eq_refl)
    as (_ & Hstay & _).
  rewrite (Hstay (or_intror eq_refl)). apply lookup_insert_eq.
Defined.

Lemma websocket_stream_failure_witness :
  let config := mkConfig (Some (u "c1")) (Some 0%Z) in
  let turns :=
    [mkTurn 0.1 (Bytes [Byte.x00; Byte.x00]); mkTurn 3.6 TimeoutError] in
  let run :=
    websocket_stream (H := scripted [Final (u "hola")]) lower_latin1
                     (mkWorld (R := list Heard) ∅ ∅)
                     (ConfigObject config) turns in
  snd run = Failed
  /\ exists steps,
       snd (fst run) = SendReady (u "c1") :: List.map InLoop steps
       /\ sent steps = [] /\ times_forced steps = 0%nat.
Proof.
  cbv zeta.
  destruct (websocket_stream_failure (H := scripted [Final (u "hola")])
              lower_latin1 (mkWorld (R := list Heard) ∅ ∅)
              (mkConfig (Some (u "c1")) (Some 0%Z))
              [mkTurn 0.1 (Bytes [Byte.x00; Byte.x00]);
               mkTurn 3.6 TimeoutError]) as [Hquiet Hfail].
  assert (Hf : snd (websocket_stream (H := scripted [Final (u "hola")])
                      lower_latin1 (mkWorld (R := list Heard) ∅ ∅)
                      (ConfigObject (mkConfig (Some (u "c1")) (Some 0%Z)))
                      [mkTurn 0.1 (Bytes [Byte.x00; Byte.x00]);
                       mkTurn 3.6 TimeoutError]) = Failed).
  { apply (Hfail (mkTurn 0.1 (Bytes [Byte.x00; Byte.x00]))
                 [mkTurn 3.6 TimeoutError] [Byte.x00; Byte.x00]);
      try reflexivity; discriminate. }
  split; [exact Hf|]. exact (Hquiet Hf).
Defined.

Lemma websocket_stream_one_decision_witness :
  let config := mkConfig None None in
  default 8000%Z (config_sample_rate config) <> 0%Z
  /\ Forall connected silence
  /\ Exists past_deadline silence
  /\ exists w' before r,
       websocket_stream (H := scripted []) lower_latin1
                        (mkWorld (R := list Heard) ∅ ∅)
                        (ConfigObject config) silence
       = (w',
          SendReady (u "unknown")
            :: List.map InLoop (before ++ [Send (Decision r)]),
          Closed).
Proof.
  cbv zeta.
  assert (Hrate : default 8000%Z (config_sample_rate (mkConfig None None))
                  <> 0%Z) by discriminate.
  assert (Hconn : Forall connected silence)
    by (repeat constructor; discriminate).
  assert (Hlate : Exists past_deadline silence)
    by (do 3 apply Exists_cons_tl; apply Exists_cons_hd; reflexivity).
  split; [exact Hrate|]. split; [exact Hconn|]. split; [exact Hlate|].
  destruct (websocket_stream_one_decision (H := scripted []) lower_latin1
              (mkWorld (R := list Heard) ∅ ∅) (mkConfig None None) silence
              Hrate Hconn Hlate) as (w' & before & r & Hrun & _).
  exists w', before, r. exact Hrun.
Defined.

(** ** The count reported by [health] *)




(** ** C6: one decision per session *)

Section Deciding.

Variable lower : str -> str.
Context {R : Type} `{Recognizer R}.

Lemma stream_loop_decides (turns : list Turn) (start : AMDSession R) :
  decision_made start = false ->
  sample_rate start <> 0%Z ->
  Forall connected turns ->
  Exists past_deadline turns ->
  exists session events r,
    stream_loop lower start turns = (session, events, Closed)
    /\ loop_decides lower start turns session events r.
Proof.
  revert start.
  induction turns as [|turn turns IH]; intros start Hd Hrate Hconn Hlate.
  { inversion Hlate. }
  inversion Hconn as [|? ? Hturn Hrest]; subst. cbn [stream_loop].
  destruct (Qlt_bool AMD_DECISION_TIMEOUT_SECONDS (elapsed turn)) eqn:Et.
  - rewrite (force_decision_undecided lower start Hd).
    eexists _, _, _. split; [reflexivity|].
    exists [], turn, turns. split; [reflexivity|].
    split; [constructor|]. split; [exact Hd|]. split; [reflexivity|].
    left. split; [apply Qlt_bool_iff, Et|].
    split; [apply (force_decision_undecided lower start Hd) | reflexivity].
  - assert (Hnot : ~ past_deadline turn).
    { unfold past_deadline. intros Hlt.
      apply Qlt_bool_iff in Hlt. congruence. }
    assert (Hlater : Exists past_deadline turns).
    { inversion Hlate; subst; [contradiction | assumption]. }
    destruct (received turn) as [audio_data| |] eqn:Er.
    + pose proof (process_audio_undecided lower start audio_data Hd)
        as (Hsr & _ & Hm).
      destruct (process_audio lower start audio_data)
        as [start' [[r|]|e]] eqn:Ep; cbn [fst snd] in Hsr, Hm.
      * destruct Hm as (_ & _ & Hfinal).
        exists start', [ProcessAudio; Send (Decision r)], r.
        split; [reflexivity|].
        exists [], turn, turns. split; [reflexivity|].
        split; [constructor|]. split; [exact Hd|]. split; [exact Hfinal|].
        right. split; [exact Hnot|]. exists audio_data.
        split; [exact Er|]. split; [exact Ep | reflexivity].
      * destruct Hm as (Hd' & _).
        assert (Hrate' : sample_rate start' <> 0%Z) by congruence.
        destruct (IH start' Hd' Hrate' Hrest Hlater)
          as (session & events & r & Hrun & Hdec).
        rewrite Hrun. exists session, (ProcessAudio :: events), r.
        split; [reflexivity|].
        destruct Hdec as (waiting & deciding & rest & Hturns & Hall & Hbefore
                          & Hfinal & Hcases).
        exists (turn :: waiting), deciding, rest.
        assert (Hframes : frames_of (turn :: waiting)
                          = audio_data :: frames_of waiting)
          by (cbn [frames_of]; rewrite Er; reflexivity).
        assert (Hcalls :
                  after_calls lower start
                    (List.map CallProcessAudio (frames_of (turn :: waiting)))
                  = after_calls lower start'
                      (List.map CallProcessAudio (frames_of waiting))).
        { rewrite Hframes. unfold after_calls. cbn [List.map fold_left after_call].
          rewrite Ep. reflexivity. }
        rewrite Hcalls, Hframes.
        split; [rewrite Hturns; reflexivity|].
        split; [constructor; assumption|].
        split; [exact Hbefore|]. split; [exact Hfinal|].
        destruct Hcases as [(Hp & Hf & He)|(Hp & a & Ha & Hpa & He)].
        -- left. split; [exact Hp|]. split; [exact Hf|].
           rewrite He. reflexivity.
        -- right. split; [exact Hp|]. exists a.
           split; [exact Ha|]. split; [exact Hpa|].
           rewrite He. reflexivity.
      * destruct Hm as (Hz & _). contradiction.
    + destruct (IH start Hd Hrate Hrest Hlater)
        as (session & events & r & Hrun & Hdec).
      exists session, events, r. split; [exact Hrun|].
      destruct Hdec as (waiting & deciding & rest & Hturns & Hall & Hbefore
                        & Hfinal & Hcases).
      exists (turn :: waiting), deciding, rest.
      assert (Hframes : frames_of (turn :: waiting) = frames_of waiting)
        by (cbn [frames_of]; rewrite Er; reflexivity).
      rewrite Hframes.
      split; [rewrite Hturns; reflexivity|].
      split; [constructor; assumption|].
      split; [exact Hbefore|]. split; [exact Hfinal | exact Hcases].
    + exfalso. apply Hturn. exact Er.
Qed.

Lemma sent_processing (frames : list bytes) (events : list Event) :
  sent (List.map (fun _ => ProcessAudio) frames ++ events) = sent events
  /\ times_forced (List.map (fun _ => ProcessAudio) frames ++ events)
     = times_forced events
  /\ without_errors (List.map (fun _ => ProcessAudio) frames ++ events)
     = List.map (fun _ => ProcessAudio) frames ++ without_errors events.
Proof.
  induction frames as [|a frames (IHs & IHf & IHw)]; [repeat split|].
  cbn. rewrite IHs, IHf, IHw. repeat split.
Qed.

(** What was sent when a loop has decided. *)
Lemma loop_decides_messages (start session : AMDSession R)
    (turns : list Turn) (events : list Event) (r : Analysis) :
  loop_decides lower start turns session events r ->
  sent events = [Decision r]
  /\ (times_forced events <= 1)%nat
  /\ (times_forced events = 1%nat <-> forced r = Some true)
  /\ without_errors events = events.
Proof.
  intros (waiting & deciding & rest & _ & _ & Hbefore & _ & Hcases).
  destruct Hcases as [(_ & Hf & ->)|(_ & a & _ & Hpa & ->)];
    destruct (sent_processing (frames_of waiting)
                [ForceDecision; Send (Decision r)]) as (Hs1 & Hf1 & Hw1);
    destruct (sent_processing (frames_of waiting)
                [ProcessAudio; Send (Decision r)]) as (Hs2 & Hf2 & Hw2).
  - rewrite Hs1, Hf1, Hw1. cbn.
    rewrite (force_decision_undecided lower _ Hbefore) in Hf.
    injection Hf as _ <-. cbn. repeat split; auto.
  - rewrite Hs2, Hf2, Hw2. cbn.
    pose proof (process_audio_undecided lower _ a Hbefore) as (_ & _ & Hm).
    rewrite Hpa in Hm. cbn [fst snd] in Hm.
    destruct Hm as ((Hforced & _) & _). rewrite Hforced.
    repeat split; auto; discriminate.
Qed.

End Deciding.

(** C6, as the code has it.  Take any turns in which the client does not
    disconnect and in which the clock is at some turn seen past the
    deadline.  [websocket_amd], whose sessions have the sample rate 8000,
    and [websocket_stream], configured with a sample rate that is not zero,
    then leave their loop having sent exactly one decision, as the last
    thing they did.  The decision is the one of the first turn that
    decides: what [process_audio] returns on the audio of that turn, when
    the deadline is not past and the frames before brought none, or what
    [force_decision] returns at the first turn past the deadline;
    [force_decision] is called at most once, and exactly when the decision
    sent is a forced one.  The decision is the stored result of the
    session, and the registry entry of the call is then gone.
    [analyze_audio], with a sample rate that is not zero, returns exactly
    one result: that of [process_audio] on the whole audio when it gives
    one, else that of [force_decision]. *)
Theorem one_decision_per_session
    (lower : str -> str) {R : Type} `{Recognizer R}
    (w : World R) (id : str) (config : Config) (turns : list Turn)
    (audio_data : bytes) (rate : Z) :
  Forall connected turns ->
  Exists past_deadline turns ->
  (exists w' session events r,
     websocket_amd lower w id turns = (w', events, Closed)
     /\ loop_decides lower (new_session id 8000) turns session events r
     /\ sent events = [Decision r]
     /\ (times_forced events <= 1)%nat
     /\ (times_forced events = 1%nat <-> forced r = Some true)
     /\ heap w' !! fresh (dom (heap w)) = Some session
     /\ active_sessions w' !! id = None)
  /\ (default 8000%Z (config_sample_rate config) <> 0%Z ->
      exists w' session events r,
        websocket_stream lower w (ConfigObject config) turns
        = (w',
           SendReady (default (u "unknown") (config_call_id config))
             :: List.map InLoop events,
           Closed)
        /\ loop_decides lower
             (new_session (default (u "unknown") (config_call_id config))
                          (default 8000%Z (config_sample_rate config)))
             turns session events r
        /\ sent events = [Decision r]
        /\ (times_forced events <= 1)%nat
        /\ (times_forced events = 1%nat <-> forced r = Some true)
        /\ heap w' !! fresh (dom (heap w)) = Some session)
  /\ (rate <> 0%Z ->
      exists r,
        analyze_audio lower id audio_data rate = Return (Some r)
        /\ (process_audio lower (new_session id rate) audio_data
            = (fst (process_audio lower (new_session id rate) audio_data),
               Return (Some r))
            \/ (snd (process_audio lower (new_session id rate) audio_data)
                = Return None
                /\ snd (force_decision lower
                          (fst (process_audio lower (new_session id rate)
                                              audio_data)))
                   = Some r
                /\ forced r = Some true))).
Proof.
  intros Hconn Hlate. split; [|split].
  - destruct (stream_loop_decides lower turns (new_session id 8000)
                eq_refl ltac:(discriminate) Hconn Hlate)
      as (session & events & r & Hrun & Hdec).
    destruct (loop_decides_messages lower _ _ _ _ _ Hdec)
      as (Hsent & Hmost & Hforced & _).
    unfold websocket_amd, create_session. rewrite Hrun.
    eexists _, session, events, r. split; [reflexivity|].
    split; [exact Hdec|]. split; [exact Hsent|]. split; [exact Hmost|].
    split; [exact Hforced|]. cbn [heap active_sessions].
    split; [apply lookup_insert_eq | apply discard_session_lookup].
  - intros Hrate.
    destruct (stream_loop_decides lower turns
                (new_session (default (u "unknown") (config_call_id config))
                             (default 8000%Z (config_sample_rate config)))
                eq_refl Hrate Hconn Hlate)
      as (session & events & r & Hrun & Hdec).
    destruct (loop_decides_messages lower _ _ _ _ _ Hdec)
      as (Hsent & Hmost & Hforced & Hclean).
    unfold websocket_stream, create_session.
    rewrite configured_loop_stream_loop, Hrun. lazy beta iota zeta.
    rewrite Hclean.
    eexists _, session, events, r. split; [reflexivity|].
    split; [exact Hdec|]. split; [exact Hsent|]. split; [exact Hmost|].
    split; [exact Hforced|]. cbn [heap]. apply lookup_insert_eq.
  - intros Hrate. unfold analyze_audio.
    pose proof (process_audio_undecided lower (new_session id rate)
                  audio_data eq_refl) as (_ & _ & Hm).
    destruct (process_audio lower (new_session id rate) audio_data)
      as [session [[r|]|e]]; cbn [fst snd] in Hm |- *.
    + exists r. split; [reflexivity|]. left. reflexivity.
    + destruct Hm as [Hd _].
      rewrite (force_decision_undecided lower session Hd). cbn [snd].
      eexists. split; [reflexivity|]. right.
      split; [reflexivity|]. split; reflexivity.
    + destruct Hm as [Hz _]. cbn in Hz. contradiction.
Qed.

(** A call configured with the sample rate 0, on which "hola" is heard at
    the first turn: the client does not disconnect and the clock passes the
    deadline, yet no decision is sent; and the single request with the
    sample rate 0 ends by an exception. *)
Lemma zero_rate_session_emits_no_decision :
  let config := mkConfig (Some (u "c1")) (Some 0%Z) in
  let turns :=
    [mkTurn 0.1 (Bytes [Byte.x00; Byte.x00]); mkTurn 3.6 TimeoutError] in
  let run :=
    websocket_stream (H := scripted [Final (u "hola")]) lower_latin1
                     (mkWorld (R := list Heard) ∅ ∅)
                     (ConfigObject config) turns in
  Forall connected turns
  /\ Exists past_deadline turns
  /\ snd run = Failed
  /\ snd (fst run) = [SendReady (u "c1"); InLoop ProcessAudio]
  /\ analyze_audio (H := scripted [Final (u "hola")]) lower_latin1
                   (u "c1") [Byte.x00; Byte.x00] 0
     = Raise ZeroDivisionError.
Proof.
  cbv zeta. split; [repeat constructor; discriminate|].
  split; [apply Exists_cons_tl, Exists_cons_hd; reflexivity|].
  split; [reflexivity|]. split; reflexivity.
Qed.

Lemma one_decision_per_session_witness :
  let w := mkWorld (R := list Heard) ∅ ∅ in
  Forall connected silence
  /\ Exists past_deadline silence
  /\ (exists w' events r,
        websocket_amd (H := scripted []) lower_latin1 w (u "c1") silence
        = (w', events, Closed)
        /\ sent events = [Decision r])
  /\ default 8000%Z (config_sample_rate (mkConfig None None)) <> 0%Z
  /\ (exists w' events r,
        websocket_stream (H := scripted []) lower_latin1 w
                         (ConfigObject (mkConfig None None)) silence
        = (w', SendReady (u "unknown") :: List.map InLoop events, Closed)
        /\ sent events = [Decision r])
  /\ (8000 <> 0)%Z
  /\ exists r,
       analyze_audio (H := scripted []) lower_latin1 (u "c1")
                     [Byte.x00; Byte.x00] 8000
       = Return (Some r).
Proof.
  cbv zeta.
  assert (Hconn : Forall connected silence)
    by (repeat constructor; discriminate).
  assert (Hlate : Exists past_deadline silence)
    by (do 3 apply Exists_cons_tl; apply Exists_cons_hd; reflexivity).
  assert (Hrate : default 8000%Z (config_sample_rate (mkConfig None None))
                  <> 0%Z) by discriminate.
  assert (Hrate' : (8000 <> 0)%Z) by discriminate.
  destruct (one_decision_per_session (H := scripted []) lower_latin1
              (mkWorld (R := list Heard) ∅ ∅) (u "c1") (mkConfig None None)
              silence [Byte.x00; Byte.x00] 8000 Hconn Hlate)
    as (Hamd & Hstream & Hsingle).
  split; [exact Hconn|]. split; [exact Hlate|]. split.
  { destruct Hamd as (w' & _ & events & r & Hrun & _ & Hsent & _).
    exists w', events, r. split; [exact Hrun | exact Hsent]. }
  split; [exact Hrate|]. split.
  { destruct (Hstream Hrate) as (w' & _ & events & r & Hrun & _ & Hsent & _).
    exists w', events, r. split; [exact Hrun | exact Hsent]. }
  split; [exact Hrate'|].
  destruct (Hsingle Hrate') as (r & Hrun & _). exists r. exact Hrun.
Defined.
